(** * mgraphics_image_rendering.js: cached, upscaled Image() rendering in a jsui

    A shallow embedding of the jsui script [mgraphics_image_rendering.js]
    (functions [paint], [drawStuff], [msg_float], [msg_int], [bang],
    [onidle], [onidleout], [direct_draw]) and the properties of its
    raster cache, its transform handling and its message handlers.

    The repository holds the script twice: once written with
    [with (mgraphics) { ... }] blocks, once with explicit receivers
    ([mgraphics.rectangle(...)], [mg.translate(...)]). Both make the
    same calls in the same order; the definitions follow the text with
    explicit receivers.

    - JavaScript numbers are IEEE 754 binary64 values: [spec_float] with
      [prec = 53] and [emax = 1024].
    - The script's global variables, the visible [mgraphics] context, the
      off-screen [MGraphics] contexts it allocates, the outlets and the
      redraw requests form one [world]; the functions of the script are
      computations in a state monad over it, failing where JavaScript
      would throw.
    - A drawing context records every method call made on it, in order,
      next to its current transform matrix. The host takes any Numbers
      as arguments of these calls; [max.getcolor] and [text_measure]
      are functions the host supplies. *)

From Stdlib Require Import ZArith String Ascii DecimalString Lia.
From Stdlib Require Import Floats.SpecFloat.
From stdpp Require Import base option list.

Open Scope Z_scope.
Open Scope string_scope.
Open Scope list_scope.

(** ** JavaScript numbers *)

Module Num.

Definition prec : Z := 53.
Definition emax : Z := 1024.

Definition num : Type := spec_float.

(** The Number value of a mathematical integer, rounded to nearest even. *)
Definition of_Z (z : Z) : num := binary_normalize prec emax z 0 false.

(** [m * 2^e] as a Number. *)
Definition of_dyadic (m e : Z) : num := binary_normalize prec emax m e false.

Definition NaN : num := S754_nan.

Definition mul : num -> num -> num := SFmul prec emax.
Definition div : num -> num -> num := SFdiv prec emax.
Definition add : num -> num -> num := SFadd prec emax.
Definition sub : num -> num -> num := SFsub prec emax.

(** The comparisons of the language: [==], [<] and [<=] on two Numbers.
    Every comparison with NaN is false. *)
Definition eqb : num -> num -> bool := SFeqb.
Definition ltb : num -> num -> bool := SFltb.
Definition leb : num -> num -> bool := SFleb.

Definition is_nan (x : num) : bool :=
  match x with S754_nan => true | _ => false end.

Definition is_neg_zero (x : num) : bool :=
  match x with S754_zero true => true | _ => false end.

(** The literals of the script. *)
Definition n0 : num := S754_zero false.
Definition n1 : num := Eval vm_compute in of_Z 1.
Definition n2 : num := Eval vm_compute in of_Z 2.
Definition n3 : num := Eval vm_compute in of_Z 3.
Definition n5 : num := Eval vm_compute in of_Z 5.
Definition n8 : num := Eval vm_compute in of_Z 8.
Definition n10 : num := Eval vm_compute in of_Z 10.
Definition n1_5 : num := Eval vm_compute in of_dyadic 3 (-1).
Definition n0_125 : num := Eval vm_compute in of_dyadic 1 (-3).

(** [Math.min(a, b)] and [Math.max(a, b)]: NaN if either argument is NaN;
    -0 is smaller than +0. *)
Definition Math_min (a b : num) : num :=
  match SFcompare a b with
  | None => NaN
  | Some Lt => a
  | Some Gt => b
  | Some Eq => if is_neg_zero a then a else b
  end.

Definition Math_max (a b : num) : num :=
  match SFcompare a b with
  | None => NaN
  | Some Gt => a
  | Some Lt => b
  | Some Eq => if is_neg_zero a then b else a
  end.

(** The closed interval [[0.125, 8]] of scale factors. *)
Definition in_range (s : num) : bool := leb n0_125 s && leb s n8.

(** Clamping into [[lo, hi]], as the specification words it: [lo] below
    the interval, [hi] above it, the value itself inside. *)
Definition clamp (lo hi v : num) : num :=
  if ltb v lo then lo else if ltb hi v then hi else v.

(** The clamping of the script agrees with it at [v], and the result
    lies in the interval. *)
Definition clamped (v : num) : Prop :=
  Math_max n0_125 (Math_min n8 v) = clamp n0_125 n8 v /\
  in_range (clamp n0_125 n8 v) = true.

End Num.

Import Num.

Declare Scope num_scope.
Delimit Scope num_scope with num.
Bind Scope num_scope with num.
Infix "*" := mul : num_scope.
Infix "/" := div : num_scope.
Infix "+" := add : num_scope.
Infix "-" := sub : num_scope.

(** Arithmetic is computed by evaluation on closed terms; simplification
    leaves it alone. *)
Arguments mul : simpl never.
Arguments div : simpl never.
Arguments add : simpl never.
Arguments sub : simpl never.
Arguments eqb : simpl never.
Arguments ltb : simpl never.
Arguments leb : simpl never.
Arguments Math_min : simpl never.
Arguments Math_max : simpl never.

(** ** JavaScript values that reach the message handlers *)

(** Max delivers ints and floats as Numbers and symbols as Strings; a
    message without argument leaves the parameter [undefined]. The
    script itself stores Numbers and Booleans in [idle] and [useImage]. *)
Inductive jsval : Type :=
| JUndefined
| JBool (b : bool)
| JNumber (n : num)
| JString (s : string).

(** Truthiness, as tested by [if ( v )]. *)
Definition ToBoolean (v : jsval) : bool :=
  match v with
  | JUndefined => false
  | JBool b => b
  | JNumber (S754_zero _) => false
  | JNumber S754_nan => false
  | JNumber _ => true
  | JString EmptyString => false
  | JString _ => true
  end.

(** ** parseInt *)

(** Strings are sequences of code units below 256. *)
Module ParseInt.

(** White space of the language among the code units below 256:
    TAB, LF, VT, FF, CR, SP and NBSP. *)
Definition is_white (c : ascii) : bool :=
  match N_of_ascii c with
  | 9 | 10 | 11 | 12 | 13 | 32 | 160 => true
  | _ => false
  end%N.

Fixpoint trim_left (s : string) : string :=
  match s with
  | String c r => if is_white c then trim_left r else s
  | EmptyString => s
  end.

(** An optional sign: [true] for a leading minus. *)
Definition strip_sign (s : string) : bool * string :=
  match s with
  | String "-" r => (true, r)
  | String "+" r => (false, r)
  | _ => (false, s)
  end.

(** With no radix argument the radix is 10, or 16 after a [0x]/[0X]
    prefix, which is removed. *)
Definition strip_prefix (s : string) : Z * string :=
  match s with
  | String "0" (String "x" r) => (16, r)
  | String "0" (String "X" r) => (16, r)
  | _ => (10, s)
  end.

Definition digit_value (R : Z) (c : ascii) : option Z :=
  let n := Z.of_N (N_of_ascii c) in
  let d :=
    (if (48 <=? n) && (n <=? 57) then Some (n - 48)
     else if (97 <=? n) && (n <=? 122) then Some (n - 87)
     else if (65 <=? n) && (n <=? 90) then Some (n - 55)
     else None)%Z in
  match d with
  | Some v => if (v <? R)%Z then Some v else None
  | None => None
  end.

(** The value of the longest prefix of radix-[R] digits; [acc] is [None]
    until a digit has been read. *)
Fixpoint digits (R : Z) (s : string) (acc : option Z) : option Z :=
  match s with
  | String c r =>
      match digit_value R c with
      | Some d => digits R r (Some (default 0 acc * R + d)%Z)
      | None => acc
      end
  | EmptyString => acc
  end.

Definition parseInt_string (s : string) : num :=
  let '(neg, s1) := strip_sign (trim_left s) in
  let '(R, s2) := strip_prefix s1 in
  match digits R s2 None with
  | None => NaN
  | Some 0 => S754_zero neg
  | Some n => of_Z (if neg then - n else n)
  end.


End ParseInt.

Import ParseInt.

Section Script.

(** [Number::toString] on the finite Numbers that are not integers below
    [2^53] (the shortest decimal representation that reads back as the
    same Number, in fixed or exponent notation) is left abstract: sign,
    mantissa and exponent to the printed string. *)
Variable Number_toString_other : bool -> positive -> Z -> string.

(** The integer [m * 2^e], when it is one. *)
Definition integer_value (m : positive) (e : Z) : option Z :=
  match e with
  | Z.neg p =>
      if (Z.pos m mod 2 ^ Z.pos p =? 0)%Z then Some (Z.pos m / 2 ^ Z.pos p) else None
  | _ => Some (Z.pos m * 2 ^ e)
  end.

Definition Number_toString (n : num) : string :=
  match n with
  | S754_nan => "NaN"
  | S754_zero _ => "0"
  | S754_infinity false => "Infinity"
  | S754_infinity true => "-Infinity"
  | S754_finite s m e =>
      match integer_value m e with
      | Some z =>
          if (z <? 2 ^ 53)%Z
          then NilZero.string_of_int (Z.to_int (if s then - z else z))
          else Number_toString_other s m e
      | None => Number_toString_other s m e
      end
  end.

Definition ToString (v : jsval) : string :=
  match v with
  | JUndefined => "undefined"
  | JBool true => "true"
  | JBool false => "false"
  | JNumber n => Number_toString n
  | JString s => s
  end.

(** [parseInt(v)] with no radix argument. *)
Definition parseInt (v : jsval) : num := parseInt_string (ToString v).

(** ** The MGraphics host interface *)

(** A transform matrix, as [get_matrix()] returns it:
    [[xx, xy, yx, yy, x0, y0]]. *)
Record matrix : Type := Matrix {
  xx : num; xy : num; yx : num; yy : num; x0 : num; y0 : num }.

Definition identity : matrix := Matrix n1 n0 n0 n1 n0 n0.

(** [scale(sx, sy)] and [translate(tx, ty)] are applied before the
    transform already in place. *)
Definition scale_matrix (sx sy : num) (m : matrix) : matrix :=
  Matrix (xx m * sx) (xy m * sy) (yx m * sx) (yy m * sy) (x0 m) (y0 m).

Definition translate_matrix (tx ty : num) (m : matrix) : matrix :=
  Matrix (xx m) (xy m) (yx m) (yy m)
         (xx m * tx + xy m * ty + x0 m) (yx m * tx + yy m * ty + y0 m).

(** A colour, as [max.getcolor(name)] returns it: a list of components. *)
Definition color : Type := list num.

(** The method calls the script makes on a drawing context. An [Image]
    is the frozen content of the context it was made from: its pixel
    size and what had been drawn into it. *)
Inductive cmd : Type :=
| rectangle (x y w h : num)
| set_source_rgba (c : color)
| fill
| fill_preserve
| stroke
| set_line_width (n : num)
| translate (tx ty : num)
| scale (sx sy : num)
| set_matrix (m : matrix)
| identity_matrix
| select_font_face (face : string)
| set_font_size (n : num)
| move_to (x y : num)
| show_text (s : string)
| image_surface_draw (img : Image)
with Image : Type :=
| mkImage (img_size : num * num) (img_drawn : list cmd).

Definition img_size (i : Image) : num * num := let '(mkImage sz _) := i in sz.
Definition img_drawn (i : Image) : list cmd := let '(mkImage _ d) := i in d.

(** A drawing context: its pixel size, its current transform and the
    calls made on it so far, oldest first. *)
Record context : Type := Context {
  size : num * num;
  ctm : matrix;
  drawn : list cmd }.

(** The effect of a call on the transform of the context. *)
Definition transform (c : cmd) (m : matrix) : matrix :=
  match c with
  | translate tx ty => translate_matrix tx ty m
  | scale sx sy => scale_matrix sx sy m
  | set_matrix m' => m'
  | identity_matrix => identity
  | _ => m
  end.

Definition call (c : cmd) (g : context) : context :=
  Context (size g) (transform c (ctm g)) (drawn g ++ [c]).

(** Calls that put ink on the surface. *)
Definition is_drawing (c : cmd) : bool :=
  match c with
  | fill | fill_preserve | stroke | show_text _ | image_surface_draw _ => true
  | _ => false
  end.

Definition is_scale (c : cmd) : bool :=
  match c with scale _ _ => true | _ => false end.

Definition is_rectangle (c : cmd) : bool :=
  match c with rectangle _ _ _ _ => true | _ => false end.

(** Calls that change the transform. *)
Definition is_transform (c : cmd) : bool :=
  match c with
  | translate _ _ | scale _ _ | set_matrix _ | identity_matrix => true
  | _ => false
  end.

(** The transform after a series of calls. *)
Definition replay (cs : list cmd) (m : matrix) : matrix :=
  fold_left (fun m c => transform c m) cs m.

(** A reference to a drawing context: the visible [mgraphics] of the
    jsui, or an object made by [new MGraphics(w, h)]. *)
Inductive mgref : Type :=
| Screen
| Offscreen (i : nat).

(** ** The world of the script *)

Record world : Type := World {
  (* the global variables of the script *)
  cachedImg : option Image;
  imgScale : num;
  idle : jsval;
  useImage : jsval;
  (* the host *)
  mgraphics : context;
  heap : list context;
  outlets : list (nat * string);
  redraws : nat;
  max_getcolor : string -> color;
  host_text_measure : context -> string -> num * num }.

Definition set_cachedImg (v : option Image) (w : world) : world :=
  World v (imgScale w) (idle w) (useImage w) (mgraphics w) (heap w)
        (outlets w) (redraws w) (max_getcolor w) (host_text_measure w).

Definition set_imgScale (v : num) (w : world) : world :=
  World (cachedImg w) v (idle w) (useImage w) (mgraphics w) (heap w)
        (outlets w) (redraws w) (max_getcolor w) (host_text_measure w).

Definition set_idle (v : jsval) (w : world) : world :=
  World (cachedImg w) (imgScale w) v (useImage w) (mgraphics w) (heap w)
        (outlets w) (redraws w) (max_getcolor w) (host_text_measure w).

Definition set_useImage (v : jsval) (w : world) : world :=
  World (cachedImg w) (imgScale w) (idle w) v (mgraphics w) (heap w)
        (outlets w) (redraws w) (max_getcolor w) (host_text_measure w).

Definition set_mgraphics (v : context) (w : world) : world :=
  World (cachedImg w) (imgScale w) (idle w) (useImage w) v (heap w)
        (outlets w) (redraws w) (max_getcolor w) (host_text_measure w).

Definition set_heap (v : list context) (w : world) : world :=
  World (cachedImg w) (imgScale w) (idle w) (useImage w) (mgraphics w) v
        (outlets w) (redraws w) (max_getcolor w) (host_text_measure w).

Definition set_outlets (v : list (nat * string)) (w : world) : world :=
  World (cachedImg w) (imgScale w) (idle w) (useImage w) (mgraphics w) (heap w)
        v (redraws w) (max_getcolor w) (host_text_measure w).

Definition set_redraws (v : nat) (w : world) : world :=
  World (cachedImg w) (imgScale w) (idle w) (useImage w) (mgraphics w) (heap w)
        (outlets w) v (max_getcolor w) (host_text_measure w).

Definition set_max_getcolor (v : string -> color) (w : world) : world :=
  World (cachedImg w) (imgScale w) (idle w) (useImage w) (mgraphics w) (heap w)
        (outlets w) (redraws w) v (host_text_measure w).

(** The context a reference points to, and its replacement. *)
Definition lookup_mg (mg : mgref) (w : world) : option context :=
  match mg with
  | Screen => Some (mgraphics w)
  | Offscreen i => heap w !! i
  end.

Definition store_mg (mg : mgref) (g : context) (w : world) : world :=
  match mg with
  | Screen => set_mgraphics g w
  | Offscreen i => set_heap (<[i := g]> (heap w)) w
  end.

(** ** The monad of the script: state, and failure for a thrown error *)

Definition M (A : Type) : Type := world -> option (A * world).

Definition ret {A} (a : A) : M A := fun w => Some (a, w).

Definition bind {A B} (c : M A) (k : A -> M B) : M B :=
  fun w => match c w with
           | Some (a, w') => k a w'
           | None => None
           end.

Definition throw {A} : M A := fun _ => None.

Definition get {A} (f : world -> A) : M A := fun w => Some (f w, w).

Definition modify (f : world -> world) : M unit := fun w => Some (tt, f w).

Notation "'let*' x ':=' c 'in' k" := (bind c (fun x => k))
  (at level 10, x name, c at level 100, k at level 200).
Notation "c >> k" := (bind c (fun _ => k))
  (at level 90, right associativity).

(** A method call on the context [mg] points to; a dangling reference
    throws. *)
Definition mg_call (mg : mgref) (c : cmd) : M unit :=
  fun w => match lookup_mg mg w with
           | Some g => Some (tt, store_mg mg (call c g) w)
           | None => None
           end.

(** The properties and the methods that return a value. *)
Definition mg_read {A} (mg : mgref) (f : world -> context -> A) : M A :=
  fun w => match lookup_mg mg w with
           | Some g => Some (f w g, w)
           | None => None
           end.

Definition mg_size (mg : mgref) : M (num * num) :=
  mg_read mg (fun _ g => size g).

Definition get_matrix (mg : mgref) : M matrix :=
  mg_read mg (fun _ g => ctm g).

Definition text_measure (mg : mgref) (str : string) : M (num * num) :=
  mg_read mg (fun w g => host_text_measure w g str).

(** [new MGraphics(w, h)]: a fresh context of that size, with the
    identity transform and nothing drawn. *)
Definition new_MGraphics (w h : num) : M mgref :=
  fun st => Some (Offscreen (length (heap st)),
                  set_heap (heap st ++ [Context (w, h) identity []]) st).

(** [new Image(mg)]: the content of the context, frozen. *)
Definition new_Image (mg : mgref) : M Image :=
  mg_read mg (fun _ g => mkImage (size g) (drawn g)).

Definition getcolor (name : string) : M color :=
  get (fun w => max_getcolor w name).

Definition outlet (n : nat) (msg : string) : M unit :=
  modify (fun w => set_outlets (outlets w ++ [(n, msg)]) w).

(** [mgraphics.redraw()]: a repaint request, serviced later by a call
    of [paint]. *)
Definition redraw : M unit :=
  modify (fun w => set_redraws (S (redraws w)) w).

(** ** The script *)

Definition str : string := "A quick brown fox jumps over the lazy dog.".

(** [function drawStuff( mg )] *)
Definition drawStuff (mg : mgref) : M unit :=
  let* _size := mg_size Screen in
  mg_call mg (set_line_width n1) >>
  let* mtx := get_matrix mg in
  mg_call mg (translate n1_5 n1_5) >>
  mg_call mg (rectangle n0 n0 (fst _size - n3) (snd _size - n3)) >>
  (let* c := getcolor "live_lcd_bg" in mg_call mg (set_source_rgba c)) >>
  mg_call mg fill_preserve >>
  (let* c := getcolor "live_lcd_control_fg" in mg_call mg (set_source_rgba c)) >>
  mg_call mg stroke >>
  mg_call mg (set_matrix mtx) >>
  mg_call mg (select_font_face "Ableton Sans Medium") >>
  mg_call mg (set_font_size n10) >>
  let* txtsize := text_measure mg str in
  mg_call mg (move_to n5 ((snd _size + snd txtsize / n2) / n2)) >>
  (let* c := getcolor "live_lcd_control_fg_alt" in mg_call mg (set_source_rgba c)) >>
  mg_call mg (show_text str) >>
  outlet 1 "bang".

(** [function paint()] *)
Definition paint : M unit :=
  (let* sz := mg_size Screen in
   mg_call Screen (rectangle n0 n0 (fst sz) (snd sz))) >>
  (let* c := getcolor "live_lcd_bg" in mg_call Screen (set_source_rgba c)) >>
  mg_call Screen fill >>
  (let* u := get useImage in
   if ToBoolean u then
     (let* ci := get cachedImg in
      match ci with
      | None =>
          let* sz := mg_size Screen in
          let* s := get imgScale in
          let* tmp_mg := new_MGraphics (fst sz * s) (snd sz * s) in
          mg_call tmp_mg (scale s s) >>
          drawStuff tmp_mg >>
          let* img := new_Image tmp_mg in
          modify (set_cachedImg (Some img))
      | Some _ => ret tt
      end) >>
     (let* s := get imgScale in mg_call Screen (scale (n1 / s) (n1 / s))) >>
     (let* ci := get cachedImg in
      match ci with
      | Some img => mg_call Screen (image_surface_draw img)
      | None => throw
      end) >>
     mg_call Screen identity_matrix
   else
     drawStuff Screen) >>
  (let* i := get idle in
   if ToBoolean i then
     let r_size := n5 in
     (let* c := getcolor "live_active_automation" in
      mg_call Screen (set_source_rgba c)) >>
     (let* sz := mg_size Screen in
      mg_call Screen (rectangle (fst sz - n2 * r_size) ((snd sz - r_size) / n2)
                                r_size r_size)) >>
     mg_call Screen fill
   else ret tt) >>
  outlet 0 "bang".

(** [function msg_float(v)] *)
Definition msg_float (v : num) : M unit :=
  modify (set_imgScale (Math_max n0_125 (Math_min n8 v))) >>
  modify (set_cachedImg None) >>
  redraw.

(** [function msg_int(v)] *)
Definition msg_int (v : num) : M unit := msg_float v.

(** [function bang()] *)
Definition bang : M unit :=
  modify (set_cachedImg None) >>
  redraw.

(** [function onidle()] *)
Definition onidle : M unit :=
  modify (set_idle (JNumber n1)) >>
  redraw.

(** [function onidleout()] *)
Definition onidleout : M unit :=
  modify (set_idle (JNumber n0)) >>
  redraw.

(** [function direct_draw(v)] *)
Definition direct_draw (v : jsval) : M unit :=
  modify (set_useImage (JBool (eqb (parseInt v) n0))) >>
  modify (set_cachedImg None) >>
  redraw.

(** ** Events and reachable states *)

(** What the host can do to the jsui: call [paint], deliver a message,
    report the mouse entering or leaving, resize the box, or change the
    colours of the theme. *)
Inductive event : Type :=
| Paint
| MsgFloat (v : num)
| MsgInt (v : num)
| Bang
| OnIdle
| OnIdleOut
| DirectDraw (v : jsval)
| HostResize (sz : num * num)
| HostTheme (th : string -> color).

Definition resize (sz : num * num) (w : world) : world :=
  set_mgraphics (Context sz (ctm (mgraphics w)) (drawn (mgraphics w))) w.

Definition handle (e : event) : M unit :=
  match e with
  | Paint => paint
  | MsgFloat v => msg_float v
  | MsgInt v => msg_int v
  | Bang => bang
  | OnIdle => onidle
  | OnIdleOut => onidleout
  | DirectDraw v => direct_draw v
  | HostResize sz => modify (resize sz)
  | HostTheme th => modify (set_max_getcolor th)
  end.

(** The events that clear the cache. *)
Definition invalidating (e : event) : bool :=
  match e with
  | MsgFloat _ | MsgInt _ | Bang | DirectDraw _ => true
  | _ => false
  end.

Definition is_paint (e : event) : bool :=
  match e with Paint => true | _ => false end.

(** The events that leave the cache alone and are not a repaint. *)
Definition quiet (e : event) : bool :=
  negb (invalidating e) && negb (is_paint e).

Fixpoint run (es : list event) : M unit :=
  match es with
  | [] => ret tt
  | e :: es' => handle e >> run es'
  end.

(** The script when it is loaded: [cachedImg = null], [imgScale = 2],
    [idle = 0], [useImage = 1]; the box has some size, the theme some
    colours, the host some way of measuring text. *)
Definition init (sz : num * num) (th : string -> color)
    (tm : context -> string -> num * num) : world :=
  World None n2 (JNumber n0) (JNumber n1)
        (Context sz identity []) [] [] 0%nat th tm.

Inductive reachable : world -> Prop :=
| reachable_init sz th tm : reachable (init sz th tm)
| reachable_step w e w' :
    reachable w -> handle e w = Some (tt, w') -> reachable w'.

(** ** Observations *)

(** [drawStuff] ends with [outlet(1, "bang")]: the messages sent out of
    outlet 1 count its runs. *)
Definition drawStuff_runs (w : world) : nat :=
  length (List.filter (fun o => Nat.eqb (fst o) 1) (outlets w)).

(** The off-screen contexts allocated so far. *)
Definition allocations (w : world) : nat := length (heap w).

(** What [drawStuff] calls on a context in state [g]: the frame, then
    the text. The box is that of the visible [mgraphics]. *)
Definition frame_cmds (w : world) (g : context) : list cmd :=
  [ set_line_width n1;
    translate n1_5 n1_5;
    rectangle n0 n0 (fst (size (mgraphics w)) - n3) (snd (size (mgraphics w)) - n3);
    set_source_rgba (max_getcolor w "live_lcd_bg");
    fill_preserve;
    set_source_rgba (max_getcolor w "live_lcd_control_fg");
    stroke;
    set_matrix (ctm g);
    select_font_face "Ableton Sans Medium";
    set_font_size n10 ].

Definition text_cmds (w : world) (g : context) : list cmd :=
  let txtsize :=
    host_text_measure w (Context (size g) (ctm g) (drawn g ++ frame_cmds w g)) str in
  [ move_to n5 ((snd (size (mgraphics w)) + snd txtsize / n2) / n2);
    set_source_rgba (max_getcolor w "live_lcd_control_fg_alt");
    show_text str ].

Definition drawStuff_cmds (w : world) (g : context) : list cmd :=
  frame_cmds w g ++ text_cmds w g.

(** The context after [drawStuff]: same size, same transform. *)
Definition drawStuff_on (w : world) (g : context) : context :=
  Context (size g) (ctm g) (drawn g ++ drawStuff_cmds w g).

Definition background_cmds (w : world) : list cmd :=
  [ rectangle n0 n0 (fst (size (mgraphics w))) (snd (size (mgraphics w)));
    set_source_rgba (max_getcolor w "live_lcd_bg");
    fill ].

Definition overlay_cmds (w : world) : list cmd :=
  if ToBoolean (idle w) then
    [ set_source_rgba (max_getcolor w "live_active_automation");
      rectangle (fst (size (mgraphics w)) - n2 * n5)
                ((snd (size (mgraphics w)) - n5) / n2) n5 n5;
      fill ]
  else [].

Definition composite_cmds (w : world) (img : Image) : list cmd :=
  [ scale (n1 / imgScale w) (n1 / imgScale w);
    image_surface_draw img;
    identity_matrix ].

(** The off-screen context [paint] makes on a cache miss, before and
    after [drawStuff], and the image taken from it. *)
Definition offscreen_size (w : world) : num * num :=
  (fst (size (mgraphics w)) * imgScale w, snd (size (mgraphics w)) * imgScale w)%num.

Definition offscreen_scaled (w : world) : context :=
  Context (offscreen_size w) (scale_matrix (imgScale w) (imgScale w) identity)
          [scale (imgScale w) (imgScale w)].

Definition built_image (w : world) : Image :=
  mkImage (offscreen_size w)
          (scale (imgScale w) (imgScale w) :: drawStuff_cmds w (offscreen_scaled w)).

(** The visible context after [paint], in cached and in direct mode. *)
Definition painted_cached (w : world) (img : Image) : context :=
  Context (size (mgraphics w)) identity
          (drawn (mgraphics w) ++ background_cmds w ++ composite_cmds w img
             ++ overlay_cmds w).

Definition painted_background (w : world) : context :=
  Context (size (mgraphics w)) (ctm (mgraphics w))
          (drawn (mgraphics w) ++ background_cmds w).

Definition painted_direct (w : world) : context :=
  Context (size (mgraphics w)) (ctm (mgraphics w))
          (drawn (mgraphics w) ++ background_cmds w
             ++ drawStuff_cmds w (painted_background w) ++ overlay_cmds w).

(** An image built at scale [s]: its pixel size is a box size times
    [s], and its content starts with [scale(s, s)]. *)
Definition built_at (s : num) (img : Image) : Prop :=
  (exists lw lh, img_size img = (lw * s, lh * s)%num) /\
  (exists rest, img_drawn img = scale s s :: rest).

(** The coherence of the cache. *)
Definition coherent (w : world) : Prop :=
  forall img, cachedImg w = Some img -> built_at (imgScale w) img.

(** The invariant of the reachable states: the cache is coherent, and
    populated only in cached mode. *)
Definition inv (w : world) : Prop :=
  coherent w /\ (is_Some (cachedImg w) -> ToBoolean (useImage w) = true).

(** A box with a non-positive width or height. *)
Definition nonpositive_size (w : world) : bool :=
  leb (fst (size (mgraphics w))) n0 || leb (snd (size (mgraphics w))) n0.


(** ** Sample worlds *)

Definition n100 : num := Eval vm_compute in of_Z 100.
Definition n200 : num := Eval vm_compute in of_Z 200.

(** 0.01, the Number nearest to 1/100. *)
Definition n0_01 : num := S754_finite false 5764607523034235 (-59).

Definition theme0 : string -> color := fun _ => [n0; n0; n0; n1].

Definition measure0 : context -> string -> num * num := fun _ _ => (n200, n10).

(** A 200 x 100 box, just loaded. *)
Definition world0 : world := init (n200, n100) theme0 measure0.

(** The same box, with a transform already set on the visible context. *)
Definition world_scaled : world :=
  World None n2 (JNumber n0) (JNumber n1)
        (Context (n200, n100) (Matrix n2 n0 n0 n2 n0 n0) [])
        [] [] 0%nat theme0 measure0.

(** A box of no extent. *)
Definition world_empty : world := init (n0, n0) theme0 measure0.

(** The 200 x 100 box after its first [paint]: the cache is populated
    and one off-screen context, 400 x 200, has been made. *)
Definition world1 : world := Eval vm_compute in
  match paint world0 with Some (_, w) => w | None => world0 end.

Definition offscreen1 : context := Eval vm_compute in
  drawStuff_on world0 (offscreen_scaled world0).

Definition image1 : Image := Eval vm_compute in built_image world0.

(** A printer for the Numbers [Number_toString] leaves open. *)
Definition toString0 : bool -> positive -> Z -> string := fun _ _ _ => "0.5".

(** The float and int messages of an event carry a number, not NaN. *)
Definition carries_number (e : event) : bool :=
  match e with
  | MsgFloat v | MsgInt v => negb (is_nan v)
  | _ => true
  end.

(** The hover indicator, as [paint] draws it on a box of size [sz]. *)
Definition indicator (w : world) : list cmd :=
  [ set_source_rgba (max_getcolor w "live_active_automation");
    rectangle (fst (size (mgraphics w)) - n10)
              ((snd (size (mgraphics w)) - n5) / n2) n5 n5;
    fill ].


(** Another theme. *)
Definition theme1 : string -> color := fun _ => [n1; n1; n1; n1].

Definition is_set_source (c : cmd) : bool :=
  match c with set_source_rgba _ => true | _ => false end.

Definition is_image_draw (c : cmd) : bool :=
  match c with image_surface_draw _ => true | _ => false end.

(** The method a call invokes, without its arguments. *)
Definition method_name (c : cmd) : string :=
  match c with
  | rectangle _ _ _ _ => "rectangle"
  | set_source_rgba _ => "set_source_rgba"
  | fill => "fill"
  | fill_preserve => "fill_preserve"
  | stroke => "stroke"
  | set_line_width _ => "set_line_width"
  | translate _ _ => "translate"
  | scale _ _ => "scale"
  | set_matrix _ => "set_matrix"
  | identity_matrix => "identity_matrix"
  | select_font_face _ => "select_font_face"
  | set_font_size _ => "set_font_size"
  | move_to _ _ => "move_to"
  | show_text _ => "show_text"
  | image_surface_draw _ => "image_surface_draw"
  end.

(** What one [paint] adds to the call log of the visible context,
    between the background and the hover indicator: the compositing of
    the image [img] in cached mode, the calls of [drawStuff] in direct
    mode. *)
Definition content_cmds (w : world) (img : option Image) : list cmd :=
  if ToBoolean (useImage w) then
    match img with Some i => composite_cmds w i | None => [] end
  else drawStuff_cmds w (painted_background w).

(** ** Comparisons of Numbers *)

Lemma SFcompare_antisym a b c :
  SFcompare a b = Some c -> SFcompare b a = Some (CompOpp c).
Proof.
  destruct a as [sa|sa| |sa ma ea], b as [sb|sb| |sb mb eb]; simpl;
    try discriminate; intros H; injection H as <-;
    try (destruct sa; reflexivity); try (destruct sb; reflexivity);
    try (destruct sa, sb; reflexivity).
  assert (Hm : Pos.compare_cont Eq mb ma = CompOpp (Pos.compare_cont Eq ma mb)).
  { by rewrite Pos.compare_cont_antisym. }
  destruct sa, sb; try reflexivity;
    rewrite (Z.compare_antisym ea eb), Hm;
    destruct (ea ?= eb)%Z; simpl; by rewrite ?CompOpp_involutive.
Qed.

Lemma SFcompare_finite_Eq s m e v :
  SFcompare (S754_finite s m e) v = Some Eq -> v = S754_finite s m e.
Proof.
  destruct v as [sv|sv| |sv mv ev]; simpl; try discriminate.
  - destruct s; discriminate.
  - destruct sv; discriminate.
  - destruct s, sv; try discriminate; intros H; injection H as H;
      destruct (e ?= ev)%Z eqn:He; try discriminate;
      apply Z.compare_eq in He; subst ev.
    + destruct (Pos.compare_cont Eq m mv) eqn:Hm; try discriminate.
      apply Pos.compare_eq in Hm. by subst.
    + apply Pos.compare_eq in H. by subst.
Qed.

Lemma SFcompare_some a b :
  is_nan a = false -> is_nan b = false -> exists c, SFcompare a b = Some c.
Proof.
  destruct a, b; simpl; try discriminate; intros _ _; eexists; reflexivity.
Qed.

(** On every Number but NaN, [Math.max(0.125, Math.min(8, v))] is the
    clamp of [v] into [[0.125, 8]], and lies in that interval. *)
Lemma above_8_not_below v :
  SFcompare n8 v = Some Lt -> SFcompare n0_125 v <> Some Gt.
Proof.
  destruct v as [[]|[]| |[] mv ev]; unfold SFcompare, n8, n0_125;
    try discriminate.
  destruct (Z.compare_spec (-49) ev), (Z.compare_spec (-55) ev);
    intros H8 H1; try discriminate; lia.
Qed.

Lemma ltb_compare a b c :
  SFcompare a b = Some c -> ltb a b = match c with Lt => true | _ => false end.
Proof. unfold ltb, SFltb. intros ->. reflexivity. Qed.

Lemma leb_compare a b c :
  SFcompare a b = Some c -> leb a b = match c with Gt => false | _ => true end.
Proof. unfold leb, SFleb. intros ->. destruct c; reflexivity. Qed.

Lemma Math_min_compare a b c :
  SFcompare a b = Some c ->
  Math_min a b =
    match c with Lt => a | Gt => b | Eq => if is_neg_zero a then a else b end.
Proof. unfold Math_min. intros ->. destruct c; reflexivity. Qed.

Lemma Math_max_compare a b c :
  SFcompare a b = Some c ->
  Math_max a b =
    match c with Gt => a | Lt => b | Eq => if is_neg_zero a then b else a end.
Proof. unfold Math_max. intros ->. destruct c; reflexivity. Qed.

Lemma clamp_8 : Math_max n0_125 n8 = n8 /\ in_range n8 = true.
Proof. vm_compute. split; reflexivity. Qed.

Lemma clamp_0_125 : in_range n0_125 = true.
Proof. vm_compute. reflexivity. Qed.

Ltac clamp_start H8 H1 :=
  pose proof (SFcompare_antisym _ _ _ H8) as H8';
  pose proof (SFcompare_antisym _ _ _ H1) as H1';
  unfold clamped, clamp, in_range;
  rewrite (Math_min_compare _ _ _ H8), (ltb_compare _ _ _ H1'),
    (ltb_compare _ _ _ H8).

Lemma clamped_at_8 v c1 :
  SFcompare n8 v = Some Eq -> SFcompare n0_125 v = Some c1 -> clamped v.
Proof.
  intros H8 H1. clamp_start H8 H1.
  pose proof (SFcompare_finite_Eq _ _ _ _ H8) as ->.
  destruct c1;
    exact clamp_8 || (exfalso; clear -H1; vm_compute in H1; discriminate).
Qed.

Lemma clamped_above v c1 :
  SFcompare n8 v = Some Lt -> SFcompare n0_125 v = Some c1 -> clamped v.
Proof.
  intros H8 H1. clamp_start H8 H1.
  destruct c1; try exact clamp_8.
  destruct (above_8_not_below v H8 H1).
Qed.

Lemma clamped_at_0_125 v :
  SFcompare n8 v = Some Gt -> SFcompare n0_125 v = Some Eq -> clamped v.
Proof.
  intros H8 H1. clamp_start H8 H1.
  pose proof (SFcompare_finite_Eq _ _ _ _ H1) as ->.
  clear. vm_compute. split; reflexivity.
Qed.

Lemma clamped_inside v :
  SFcompare n8 v = Some Gt -> SFcompare n0_125 v = Some Lt -> clamped v.
Proof.
  intros H8 H1. clamp_start H8 H1.
  unfold CompOpp; cbv beta iota.
  rewrite (Math_max_compare _ _ _ H1), (leb_compare _ _ _ H1),
    (leb_compare _ _ _ H8').
  split; reflexivity.
Qed.

Lemma clamped_below v :
  SFcompare n8 v = Some Gt -> SFcompare n0_125 v = Some Gt -> clamped v.
Proof.
  intros H8 H1. clamp_start H8 H1.
  unfold CompOpp; cbv beta iota.
  rewrite (Math_max_compare _ _ _ H1).
  split; [reflexivity|exact clamp_0_125].
Qed.

(** On every Number but NaN, [Math.max(0.125, Math.min(8, v))] is the
    clamp of [v] into [[0.125, 8]], and lies in that interval. *)
Lemma max_min_clamp v : is_nan v = false -> clamped v.
Proof.
  intros Hv.
  destruct (SFcompare_some n8 v eq_refl Hv) as [c8 H8].
  destruct (SFcompare_some n0_125 v eq_refl Hv) as [c1 H1].
  destruct c8.
  - exact (clamped_at_8 v c1 H8 H1).
  - exact (clamped_above v c1 H8 H1).
  - destruct c1.
    + exact (clamped_at_0_125 v H8 H1).
    + exact (clamped_inside v H8 H1).
    + exact (clamped_below v H8 H1).
Qed.

(** ** Contexts and references *)

Lemma lookup_store_mg mg g0 g w :
  lookup_mg mg w = Some g0 -> lookup_mg mg (store_mg mg g w) = Some g.
Proof.
  destruct mg as [|i]; simpl; [reflexivity|].
  intros H. apply list_lookup_insert_eq. by eapply lookup_lt_Some.
Qed.

Lemma store_store_mg mg g1 g2 w :
  store_mg mg g2 (store_mg mg g1 w) = store_mg mg g2 w.
Proof.
  destruct mg as [|i]; simpl; unfold set_mgraphics, set_heap; simpl;
    [reflexivity|].
  by rewrite list_insert_insert_eq.
Qed.

Lemma mg_call_ok mg c g w :
  lookup_mg mg w = Some g ->
  mg_call mg c w = Some (tt, store_mg mg (call c g) w).
Proof. unfold mg_call. by intros ->. Qed.

(** ** What drawStuff does *)

Arguments drawStuff : simpl never.

(** Evaluation of the monadic code, by value, on a world given by its
    fields. *)
Ltac run_script :=
  cbv [bind mg_call mg_size get_matrix text_measure new_Image mg_read
       new_MGraphics getcolor get outlet redraw modify ret throw
       lookup_mg store_mg call transform set_cachedImg set_imgScale set_idle
       set_useImage set_mgraphics set_heap set_outlets set_redraws
       set_max_getcolor
       cachedImg imgScale idle useImage mgraphics heap outlets redraws
       max_getcolor host_text_measure size ctm drawn fst snd].

Ltac unfold_cmds :=
  unfold painted_cached, painted_direct, painted_background, built_image,
    offscreen_scaled, offscreen_size, composite_cmds, background_cmds,
    overlay_cmds, drawStuff_on, drawStuff_cmds, text_cmds, frame_cmds.

(** On a live reference [drawStuff] returns, having made the calls
    [drawStuff_cmds] on the context and sent one bang out of outlet 1. *)
Lemma drawStuff_spec mg g w :
  lookup_mg mg w = Some g ->
  drawStuff mg w =
    Some (tt, set_outlets (outlets w ++ [(1%nat, "bang")])
                          (store_mg mg (drawStuff_on w g) w)).
Proof.
  intros H. unfold drawStuff. unfold_cmds.
  destruct mg as [|i]; simpl in H.
  - injection H as <-. destruct w as [ci s id ui [sz m d] hp ol rd gc tm].
    run_script. rewrite <- !app_assoc. reflexivity.
  - assert (Hi : (i < length (heap w))%nat) by (by eapply lookup_lt_Some).
    destruct w as [ci s id ui scr hp ol rd gc tm]. destruct g as [sz m d].
    simpl in H, Hi.
    run_script. rewrite H. cbv beta iota.
    repeat (rewrite list_lookup_insert_eq by (by rewrite ?length_insert);
            cbv beta iota).
    rewrite !list_insert_insert_eq.
    rewrite <- !app_assoc. reflexivity.
Qed.

(** ** What paint does *)

(** Cached mode, cache empty: the image is built off screen, stored
    and composited. *)
Lemma paint_miss w :
  ToBoolean (useImage w) = true ->
  cachedImg w = None ->
  paint w =
    Some (tt, World (Some (built_image w)) (imgScale w) (idle w) (useImage w)
                    (painted_cached w (built_image w))
                    (heap w ++ [drawStuff_on w (offscreen_scaled w)])
                    (outlets w ++ [(1%nat, "bang"); (0%nat, "bang")])
                    (redraws w) (max_getcolor w) (host_text_measure w)).
Proof.
  destruct w as [ci s id ui [sz m d] hp ol rd gc tm]. simpl.
  intros Hu ->. unfold paint.
  run_script. rewrite Hu. run_script.
  rewrite list_lookup_middle by reflexivity. run_script.
  erewrite drawStuff_spec; last first.
  { cbv [lookup_mg heap].
    apply list_lookup_insert_eq. rewrite length_app. simpl. lia. }
  run_script.
  rewrite !list_insert_insert_eq.
  rewrite list_lookup_insert_eq by (rewrite length_app; simpl; lia).
  unfold_cmds. run_script.
  rewrite !insert_app_r_alt by lia. rewrite !Nat.sub_diag.
  destruct (ToBoolean id); run_script; simpl; rewrite <- ?app_assoc;
    reflexivity.
Qed.

(** Cached mode, cache populated: the stored image is composited;
    nothing is allocated, [drawStuff] does not run. *)
Lemma paint_hit w img :
  ToBoolean (useImage w) = true ->
  cachedImg w = Some img ->
  paint w =
    Some (tt, World (Some img) (imgScale w) (idle w) (useImage w)
                    (painted_cached w img) (heap w)
                    (outlets w ++ [(0%nat, "bang")])
                    (redraws w) (max_getcolor w) (host_text_measure w)).
Proof.
  destruct w as [ci s id ui [sz m d] hp ol rd gc tm]. simpl.
  intros Hu ->. unfold paint. unfold_cmds.
  run_script. rewrite Hu. run_script.
  destruct (ToBoolean id); run_script; rewrite <- ?app_assoc; reflexivity.
Qed.

(** Direct mode: [drawStuff] draws into the visible context; the cache
    is not touched. *)
Lemma paint_direct w :
  ToBoolean (useImage w) = false ->
  paint w =
    Some (tt, World (cachedImg w) (imgScale w) (idle w) (useImage w)
                    (painted_direct w) (heap w)
                    (outlets w ++ [(1%nat, "bang"); (0%nat, "bang")])
                    (redraws w) (max_getcolor w) (host_text_measure w)).
Proof.
  destruct w as [ci s id ui [sz m d] hp ol rd gc tm]. simpl.
  intros Hu. unfold paint.
  run_script. rewrite Hu. run_script.
  erewrite drawStuff_spec by reflexivity.
  unfold_cmds. run_script.
  destruct (ToBoolean id); run_script; simpl; rewrite <- ?app_assoc;
    reflexivity.
Qed.

(** [paint] always returns. *)
Lemma paint_total w : exists w', paint w = Some (tt, w').
Proof.
  destruct (ToBoolean (useImage w)) eqn:Hu.
  - destruct (cachedImg w) as [img|] eqn:Hc.
    + eexists. by apply paint_hit.
    + eexists. by apply paint_miss.
  - eexists. by apply paint_direct.
Qed.

(** ** The handlers *)

Lemma msg_float_spec v w :
  msg_float v w =
    Some (tt, World None (Math_max n0_125 (Math_min n8 v)) (idle w) (useImage w)
                    (mgraphics w) (heap w) (outlets w) (S (redraws w))
                    (max_getcolor w) (host_text_measure w)).
Proof. reflexivity. Qed.

Lemma bang_spec w :
  bang w =
    Some (tt, World None (imgScale w) (idle w) (useImage w)
                    (mgraphics w) (heap w) (outlets w) (S (redraws w))
                    (max_getcolor w) (host_text_measure w)).
Proof. reflexivity. Qed.

Lemma onidle_spec w :
  onidle w =
    Some (tt, World (cachedImg w) (imgScale w) (JNumber n1) (useImage w)
                    (mgraphics w) (heap w) (outlets w) (S (redraws w))
                    (max_getcolor w) (host_text_measure w)).
Proof. reflexivity. Qed.

Lemma onidleout_spec w :
  onidleout w =
    Some (tt, World (cachedImg w) (imgScale w) (JNumber n0) (useImage w)
                    (mgraphics w) (heap w) (outlets w) (S (redraws w))
                    (max_getcolor w) (host_text_measure w)).
Proof. reflexivity. Qed.

Lemma direct_draw_spec v w :
  direct_draw v w =
    Some (tt, World None (imgScale w) (idle w) (JBool (eqb (parseInt v) n0))
                    (mgraphics w) (heap w) (outlets w) (S (redraws w))
                    (max_getcolor w) (host_text_measure w)).
Proof. reflexivity. Qed.

(** Every event is handled to completion. *)
Lemma handle_total e w : exists w', handle e w = Some (tt, w').
Proof.
  destruct e; simpl; try (eexists; reflexivity).
  apply paint_total.
Qed.

(** A quiet event changes neither the script's cache variables nor the
    off-screen contexts nor what went out of the outlets. *)
Lemma quiet_frame e w w' :
  quiet e = true ->
  handle e w = Some (tt, w') ->
  cachedImg w' = cachedImg w /\ imgScale w' = imgScale w /\
  useImage w' = useImage w /\ heap w' = heap w /\ outlets w' = outlets w.
Proof.
  destruct e; simpl; try discriminate; intros _ H;
    injection H as <-; repeat split.
Qed.

Lemma run_quiet es w :
  Forall (fun e => quiet e = true) es ->
  exists w', run es w = Some (tt, w') /\
    cachedImg w' = cachedImg w /\ imgScale w' = imgScale w /\
    useImage w' = useImage w /\ heap w' = heap w /\ outlets w' = outlets w.
Proof.
  intros H. revert w. induction H as [|e es He _ IH]; intros w.
  - exists w. repeat split.
  - destruct (handle_total e w) as [w1 H1].
    destruct (quiet_frame e w w1 He H1) as (E1 & E2 & E3 & E4 & E5).
    destruct (IH w1) as (w' & Hr & F1 & F2 & F3 & F4 & F5).
    exists w'. simpl. unfold bind. rewrite H1.
    repeat split; congruence.
Qed.

Lemma drawStuff_runs_app w w' o :
  outlets w' = outlets w ++ o ->
  drawStuff_runs w' =
  (drawStuff_runs w + length (List.filter (fun o => Nat.eqb (fst o) 1) o))%nat.
Proof.
  unfold drawStuff_runs. intros ->. by rewrite List.filter_app, length_app.
Qed.

(** ** The invariant of the reachable states *)

Lemma built_image_built_at w : built_at (imgScale w) (built_image w).
Proof.
  split; simpl.
  - by exists (fst (size (mgraphics w))), (snd (size (mgraphics w))).
  - by eexists.
Qed.

Lemma inv_init sz th tm : inv (init sz th tm).
Proof.
  split.
  - intros img H. discriminate.
  - intros [img H]. discriminate.
Qed.

Lemma inv_step e w w' : inv w -> handle e w = Some (tt, w') -> inv w'.
Proof.
  intros [Hc Hu] H. destruct e; simpl in H;
    try (injection H as <-; split;
         [ intros img E; try discriminate E; exact (Hc img E)
         | intros [img E]; try discriminate E; apply Hu; by exists img ]).
  destruct (ToBoolean (useImage w)) eqn:Eu.
  - destruct (cachedImg w) as [img0|] eqn:Ec.
    + rewrite (paint_hit w img0 Eu Ec) in H. injection H as <-.
      split; [|done]. intros img E. simpl in *. apply Hc. congruence.
    + rewrite (paint_miss w Eu Ec) in H. injection H as <-.
      split; [|done]. intros img E. simpl in *.
      injection E as <-. apply built_image_built_at.
  - rewrite (paint_direct w Eu) in H. injection H as <-.
    split; [exact Hc|]. simpl. intros Hs. specialize (Hu Hs). congruence.
Qed.

Lemma reachable_inv w : reachable w -> inv w.
Proof.
  induction 1 as [sz th tm|w e w' _ IH H].
  - apply inv_init.
  - by eapply inv_step.
Qed.

(** * The properties of the script *)

(** ** The raster cache *)

Lemma paint_miss_runs w w' :
  ToBoolean (useImage w) = true -> cachedImg w = None ->
  paint w = Some (tt, w') ->
  cachedImg w' = Some (built_image w) /\
  imgScale w' = imgScale w /\ useImage w' = useImage w /\
  drawStuff_runs w' = S (drawStuff_runs w) /\
  allocations w' = S (allocations w).
Proof.
  intros Hu Hc H. rewrite (paint_miss w Hu Hc) in H. injection H as <-.
  repeat split.
  - erewrite drawStuff_runs_app by reflexivity. simpl. lia.
  - unfold allocations. simpl. rewrite length_app. simpl. lia.
Qed.

Lemma paint_hit_runs w img w' :
  ToBoolean (useImage w) = true -> cachedImg w = Some img ->
  paint w = Some (tt, w') ->
  cachedImg w' = Some img /\
  imgScale w' = imgScale w /\ useImage w' = useImage w /\
  drawStuff_runs w' = drawStuff_runs w /\
  allocations w' = allocations w.
Proof.
  intros Hu Hc H. rewrite (paint_hit w img Hu Hc) in H. injection H as <-.
  repeat split.
  erewrite drawStuff_runs_app by reflexivity. simpl. lia.
Qed.

(** C1. For every scale factor in [0.125, 8]: when a paint call in
    cached mode builds the cached image and only events that neither
    change the scale factor nor clear the cache happen before the next
    paint call, that second call runs [drawStuff] zero times and
    allocates no off-screen context. [drawStuff] has run exactly once
    over the two calls. *)
Theorem paint_twice_draws_once w es :
  in_range (imgScale w) = true ->
  ToBoolean (useImage w) = true ->
  cachedImg w = None ->
  Forall (fun e => quiet e = true) es ->
  exists w1 w2 w3,
    paint w = Some (tt, w1) /\
    run es w1 = Some (tt, w2) /\
    paint w2 = Some (tt, w3) /\
    cachedImg w1 = Some (built_image w) /\
    drawStuff_runs w1 = S (drawStuff_runs w) /\
    drawStuff_runs w3 = drawStuff_runs w1 /\
    drawStuff_runs w3 = S (drawStuff_runs w) /\
    allocations w3 = allocations w1 /\
    cachedImg w3 = cachedImg w1.
Proof.
  intros _ Hu Hc Hq.
  destruct (paint_total w) as [w1 H1].
  destruct (paint_miss_runs w w1 Hu Hc H1) as (C1 & S1 & U1 & R1 & A1).
  destruct (run_quiet es w1 Hq) as (w2 & H2 & C2 & S2 & U2 & P2 & O2).
  destruct (paint_total w2) as [w3 H3].
  assert (Hu2 : ToBoolean (useImage w2) = true) by congruence.
  assert (Hc2 : cachedImg w2 = Some (built_image w)) by congruence.
  destruct (paint_hit_runs w2 _ w3 Hu2 Hc2 H3) as (C3 & S3 & U3 & R3 & A3).
  assert (R2 : drawStuff_runs w2 = drawStuff_runs w1).
  { unfold drawStuff_runs. by rewrite O2. }
  exists w1, w2, w3. repeat split; try assumption.
  - congruence.
  - congruence.
  - rewrite A3. unfold allocations. by rewrite P2.
  - congruence.
Qed.

(** C2. In every reachable state the cached image, when present, was
    built at the current scale factor; and from such a state every
    handler that changes the scale factor ([msg_float], [msg_int]),
    asks for a refresh ([bang]) or switches the draw mode
    ([direct_draw]) returns with the cached image absent and one more
    repaint requested, before any [paint] runs. *)
Theorem cache_coherence w :
  reachable w ->
  coherent w /\
  forall e, invalidating e = true ->
    exists w', handle e w = Some (tt, w') /\
      cachedImg w' = None /\ redraws w' = S (redraws w) /\ coherent w'.
Proof.
  intros Hr. destruct (reachable_inv w Hr) as [Hc _]. split; [exact Hc|].
  intros e He.
  destruct e; try discriminate He; simpl; eexists;
    (split; [reflexivity|]); simpl;
    (split; [reflexivity|]); (split; [reflexivity|]);
    intros img' E; discriminate E.
Qed.

(** C3. On a cache miss [paint] allocates an off-screen context whose
    pixel size is the size of the visible context times the scale
    factor; the first call made on it is [scale(s, s)], no other call
    on it is a scale, and the calls that follow are those of
    [drawStuff], which runs once; the image stored is taken from it. *)
Theorem paint_miss_offscreen w :
  ToBoolean (useImage w) = true ->
  cachedImg w = None ->
  exists w' g rest,
    paint w = Some (tt, w') /\
    heap w' = heap w ++ [g] /\
    size g = (fst (size (mgraphics w)) * imgScale w,
              snd (size (mgraphics w)) * imgScale w)%num /\
    drawn g = scale (imgScale w) (imgScale w) :: rest /\
    Forall (fun c => is_scale c = false) rest /\
    rest = drawStuff_cmds w (offscreen_scaled w) /\
    drawStuff_runs w' = S (drawStuff_runs w) /\
    cachedImg w' = Some (mkImage (size g) (drawn g)).
Proof.
  intros Hu Hc.
  exists (World (Some (built_image w)) (imgScale w) (idle w) (useImage w)
                (painted_cached w (built_image w))
                (heap w ++ [drawStuff_on w (offscreen_scaled w)])
                (outlets w ++ [(1%nat, "bang"); (0%nat, "bang")])
                (redraws w) (max_getcolor w) (host_text_measure w)),
         (drawStuff_on w (offscreen_scaled w)),
         (drawStuff_cmds w (offscreen_scaled w)).
  split; [by apply paint_miss|].
  repeat split.
  - unfold drawStuff_cmds, frame_cmds, text_cmds. repeat constructor.
  - erewrite drawStuff_runs_app by reflexivity. simpl. lia.
Qed.

(** ** Transforms *)

(** After a paint call in cached mode the transform of the visible
    context is the identity: the call ends the compositing with
    [identity_matrix()]. It equals the transform before the call
    exactly when that was the identity. *)
Lemma paint_cached_resets_transform w :
  ToBoolean (useImage w) = true ->
  exists w',
    paint w = Some (tt, w') /\
    ctm (mgraphics w') = identity /\
    (ctm (mgraphics w') = ctm (mgraphics w) <-> ctm (mgraphics w) = identity).
Proof.
  intros Hu. destruct (cachedImg w) as [img|] eqn:Hc.
  - eexists. split; [by apply paint_hit|]. simpl. split; [reflexivity|].
    split; congruence.
  - eexists. split; [by apply paint_miss|]. simpl. split; [reflexivity|].
    split; congruence.
Qed.

(** No run of the script leaves a transform on the visible context:
    the handlers do not touch it, [drawStuff] puts back the one it
    found, and [paint] in cached mode ends with the identity. *)
Lemma reachable_ctm_identity w :
  reachable w -> ctm (mgraphics w) = identity.
Proof.
  induction 1 as [sz th tm|w e w' _ IH H]; [reflexivity|].
  destruct e; simpl in H;
    try (injection H as <-; exact IH).
  destruct (ToBoolean (useImage w)) eqn:Hu.
  - destruct (paint_cached_resets_transform w Hu) as (w1 & H1 & E & _).
    congruence.
  - rewrite (paint_direct w Hu) in H. injection H as <-. exact IH.
Qed.

(** C4. Whatever transform the visible context has when [paint] is
    called (in every state the script reaches it is the identity), a
    paint call in cached mode leaves the visible context with the
    transform it had before the call: the [scale(1/s, 1/s)] applied
    for compositing is gone when [paint] returns. *)
Theorem paint_cached_keeps_transform w :
  reachable w ->
  ToBoolean (useImage w) = true ->
  exists w',
    paint w = Some (tt, w') /\
    ctm (mgraphics w') = ctm (mgraphics w) /\
    ctm (mgraphics w) = identity.
Proof.
  intros Hr Hu.
  destruct (paint_cached_resets_transform w Hu) as (w' & H & E & _).
  pose proof (reachable_ctm_identity w Hr) as E0.
  exists w'. split; [exact H|]. split; [congruence|exact E0].
Qed.

(** C5. Whatever live context [drawStuff] is given, off-screen or
    visible, and whatever the size of that context, the one rectangle
    it makes there is [(0, 0, w - 3, h - 3)] for the size [(w, h)] of
    the visible [mgraphics]. *)
Theorem drawStuff_frame_from_screen mg g w :
  lookup_mg mg w = Some g ->
  exists w' g' cs,
    drawStuff mg w = Some (tt, w') /\
    lookup_mg mg w' = Some g' /\
    drawn g' = drawn g ++ cs /\
    List.filter is_rectangle cs =
      [rectangle n0 n0 (fst (size (mgraphics w)) - n3)
                       (snd (size (mgraphics w)) - n3)].
Proof.
  intros H.
  exists (set_outlets (outlets w ++ [(1%nat, "bang")])
                      (store_mg mg (drawStuff_on w g) w)),
         (drawStuff_on w g), (drawStuff_cmds w g).
  split; [by apply drawStuff_spec|].
  split; [|split; reflexivity].
  destruct mg as [|i]; simpl; [reflexivity|].
  apply list_lookup_insert_eq. by eapply lookup_lt_Some.
Qed.

(** C6. Whatever transform the caller has set on the context,
    [drawStuff] leaves it as it found it: among its calls the only
    ones that touch the transform are [translate(1.5, 1.5)] and a
    [set_matrix] of the matrix read on entry; no [identity_matrix]. *)
Theorem drawStuff_restores_matrix mg g w :
  lookup_mg mg w = Some g ->
  exists w' g' cs,
    drawStuff mg w = Some (tt, w') /\
    lookup_mg mg w' = Some g' /\
    ctm g' = ctm g /\
    drawn g' = drawn g ++ cs /\
    replay cs (ctm g) = ctm g /\
    List.filter is_transform cs = [translate n1_5 n1_5; set_matrix (ctm g)].
Proof.
  intros H.
  exists (set_outlets (outlets w ++ [(1%nat, "bang")])
                      (store_mg mg (drawStuff_on w g) w)),
         (drawStuff_on w g), (drawStuff_cmds w g).
  split; [by apply drawStuff_spec|].
  split; [|repeat split; reflexivity].
  destruct mg as [|i]; simpl; [reflexivity|].
  apply list_lookup_insert_eq. by eapply lookup_lt_Some.
Qed.

(** ** The message handlers *)

(** On every Number but NaN [msg_float] stores the clamp of its
    argument into [0.125, 8], clears the cache and asks for a repaint. *)
Lemma msg_float_clamps v w :
  is_nan v = false ->
  exists w',
    msg_float v w = Some (tt, w') /\
    imgScale w' = clamp n0_125 n8 v /\
    in_range (imgScale w') = true /\
    cachedImg w' = None /\ redraws w' = S (redraws w).
Proof.
  intros Hv. destruct (max_min_clamp v Hv) as [E R].
  eexists. split; [apply msg_float_spec|]. simpl. rewrite E. by repeat split.
Qed.

Example msg_float_10 :
  exists w', msg_float n10 world0 = Some (tt, w') /\ imgScale w' = n8.
Proof. eexists. split; [apply msg_float_spec|]. vm_compute. reflexivity. Qed.

Example msg_float_0_01 :
  exists w', msg_float n0_01 world0 = Some (tt, w') /\ imgScale w' = n0_125.
Proof. eexists. split; [apply msg_float_spec|]. vm_compute. reflexivity. Qed.

(** C7, at the input where the code departs from it. [msg_float(NaN)]
    returns without an error and stores NaN as the scale factor, which
    is not in [0.125, 8]: [Math.min(8, NaN)] is NaN and so is
    [Math.max(0.125, NaN)]. *)
Theorem msg_float_NaN w :
  exists w',
    msg_float NaN w = Some (tt, w') /\
    imgScale w' = NaN /\
    in_range (imgScale w') = false.
Proof. eexists. split; [apply msg_float_spec|]. split; reflexivity. Qed.

(** C8. [onidle] and [onidleout] set the hover flag (to 1 and to 0),
    ask for a repaint and leave the cached image as it is; from a
    reachable state with the cache populated, hover-enter, paint,
    hover-leave, paint runs [drawStuff] zero times, allocates nothing
    and ends with the same cached image. *)
Theorem hover_keeps_cache w img :
  reachable w ->
  cachedImg w = Some img ->
  exists w1 w2 w3 w4,
    onidle w = Some (tt, w1) /\ paint w1 = Some (tt, w2) /\
    onidleout w2 = Some (tt, w3) /\ paint w3 = Some (tt, w4) /\
    run [OnIdle; Paint; OnIdleOut; Paint] w = Some (tt, w4) /\
    idle w1 = JNumber n1 /\ ToBoolean (idle w1) = true /\
    idle w3 = JNumber n0 /\ ToBoolean (idle w3) = false /\
    redraws w1 = S (redraws w) /\ redraws w3 = S (redraws w2) /\
    cachedImg w1 = Some img /\ cachedImg w2 = Some img /\
    cachedImg w3 = Some img /\ cachedImg w4 = Some img /\
    drawStuff_runs w4 = drawStuff_runs w /\
    allocations w4 = allocations w.
Proof.
  intros Hr Hc.
  destruct (reachable_inv w Hr) as [_ Hu]. specialize (Hu (ex_intro _ img Hc)).
  pose proof (onidle_spec w) as H1.
  set (w1 := World (cachedImg w) (imgScale w) (JNumber n1) (useImage w)
                   (mgraphics w) (heap w) (outlets w) (S (redraws w))
                   (max_getcolor w) (host_text_measure w)) in *.
  destruct (paint_total w1) as [w2 H2].
  destruct (paint_hit_runs w1 img w2 Hu Hc H2) as (C2 & S2 & U2 & R2 & A2).
  pose proof (onidleout_spec w2) as H3.
  set (w3 := World (cachedImg w2) (imgScale w2) (JNumber n0) (useImage w2)
                   (mgraphics w2) (heap w2) (outlets w2) (S (redraws w2))
                   (max_getcolor w2) (host_text_measure w2)) in *.
  destruct (paint_total w3) as [w4 H4].
  assert (Hu3 : ToBoolean (useImage w3) = true).
  { unfold w3. simpl. rewrite U2. exact Hu. }
  destruct (paint_hit_runs w3 img w4 Hu3 C2 H4) as (C4 & S4 & U4 & R4 & A4).
  exists w1, w2, w3, w4.
  repeat split; try assumption; try reflexivity.
  - simpl. unfold bind. rewrite H1, H2, H3, H4. reflexivity.
  - rewrite R4. exact R2.
  - rewrite A4. exact A2.
Qed.





Example direct_draw_1 :
  exists w', direct_draw (JNumber n1) world0 = Some (tt, w') /\
             ToBoolean (useImage w') = false.
Proof. eexists. split; [apply direct_draw_spec|]. vm_compute. reflexivity. Qed.

Example direct_draw_0 :
  exists w', direct_draw (JNumber n0) world0 = Some (tt, w') /\
             ToBoolean (useImage w') = true.
Proof. eexists. split; [apply direct_draw_spec|]. vm_compute. reflexivity. Qed.

Example direct_draw_symbol :
  exists w', direct_draw (JString "off") world0 = Some (tt, w') /\
             ToBoolean (useImage w') = false.
Proof. eexists. split; [apply direct_draw_spec|]. vm_compute. reflexivity. Qed.

Example direct_draw_hex_zero :
  exists w', direct_draw (JString " -0x00z") world0 = Some (tt, w') /\
             ToBoolean (useImage w') = true.
Proof. eexists. split; [apply direct_draw_spec|]. vm_compute. reflexivity. Qed.

(** ** Degenerate sizes *)

(** C9, as the code has it. [paint] does not look at the sign of the
    size of the box. With a non-positive width or height it returns,
    having made on the visible context the background calls, then the
    compositing of the cached image (built first, off screen, when the
    cache was empty) or in direct mode the calls of [drawStuff], then
    the hover indicator if [idle] is set; it has sent the bang of
    [drawStuff], when that ran, out of outlet 1 and then the bang out
    of outlet 0, and nothing else. With any other size in place of the
    non-positive one it makes the same method calls, sends the same
    messages and allocates as many contexts. *)
Theorem paint_ignores_size w :
  nonpositive_size w = true ->
  exists w',
    paint w = Some (tt, w') /\
    redraws w' = redraws w /\
    drawn (mgraphics w') =
      drawn (mgraphics w) ++ background_cmds w
        ++ content_cmds w (cachedImg w') ++ overlay_cmds w /\
    (if ToBoolean (useImage w) then
       cachedImg w' = Some (default (built_image w) (cachedImg w)) /\
       heap w' = heap w ++ match cachedImg w with
                           | Some _ => []
                           | None => [drawStuff_on w (offscreen_scaled w)]
                           end /\
       outlets w' = outlets w ++ match cachedImg w with
                                 | Some _ => []
                                 | None => [(1%nat, "bang")]
                                 end ++ [(0%nat, "bang")]
     else
       cachedImg w' = cachedImg w /\
       heap w' = heap w /\
       outlets w' = outlets w ++ [(1%nat, "bang"); (0%nat, "bang")]) /\
    forall sz, exists w'',
      paint (resize sz w) = Some (tt, w'') /\
      map method_name (drawn (mgraphics w'')) =
        map method_name (drawn (mgraphics w')) /\
      map (fun g => map method_name (drawn g)) (heap w'') =
        map (fun g => map method_name (drawn g)) (heap w') /\
      outlets w'' = outlets w' /\
      redraws w'' = redraws w'.
Proof.
  intros _. unfold content_cmds. destruct (ToBoolean (useImage w)) eqn:Hu.
  - destruct (cachedImg w) as [img|] eqn:Hc.
    + eexists. split; [by apply paint_hit|]. simpl.
      split; [reflexivity|]. split; [reflexivity|].
      split; [by rewrite app_nil_r|].
      intros sz. eexists.
      split; [apply (paint_hit (resize sz w) img Hu Hc)|]. simpl.
      rewrite !map_app. unfold overlay_cmds. simpl.
      destruct (ToBoolean (idle w)); repeat split.
    + eexists. split; [by apply paint_miss|]. simpl.
      split; [reflexivity|]. split; [reflexivity|].
      split; [repeat split|].
      intros sz. eexists.
      split; [apply (paint_miss (resize sz w) Hu Hc)|]. simpl.
      rewrite !map_app. unfold overlay_cmds. simpl.
      destruct (ToBoolean (idle w)); repeat split.
  - eexists. split; [by apply paint_direct|]. simpl.
    split; [reflexivity|]. split; [reflexivity|].
    split; [repeat split|].
    intros sz. eexists.
    split; [apply (paint_direct (resize sz w) Hu)|]. simpl.
    rewrite !map_app. unfold overlay_cmds. simpl.
    destruct (ToBoolean (idle w)); repeat split.
Qed.

(** * Further properties *)

(** ** What the handlers leave alone *)

Lemma paint_direct_runs w w' :
  ToBoolean (useImage w) = false ->
  paint w = Some (tt, w') ->
  cachedImg w' = cachedImg w /\
  imgScale w' = imgScale w /\ useImage w' = useImage w /\
  drawStuff_runs w' = S (drawStuff_runs w) /\
  allocations w' = allocations w /\
  ctm (mgraphics w') = ctm (mgraphics w).
Proof.
  intros Hu H. rewrite (paint_direct w Hu) in H. injection H as <-.
  repeat split.
  erewrite drawStuff_runs_app by reflexivity. simpl. lia.
Qed.


(** X11. Only [paint] draws and only [paint] sends messages out of the
    outlets: no message handler (and no resize or theme change) makes a
    call on the visible context, touches an off-screen context or uses
    an outlet. *)
Theorem handlers_never_draw e w w' :
  is_paint e = false ->
  handle e w = Some (tt, w') ->
  drawn (mgraphics w') = drawn (mgraphics w) /\
  ctm (mgraphics w') = ctm (mgraphics w) /\
  heap w' = heap w /\
  outlets w' = outlets w.
Proof.
  destruct e; simpl; try discriminate; intros _ H;
    injection H as <-; repeat split.
Qed.

(** ** The cache over sequences of events *)

Lemma run_cons e es w w1 :
  handle e w = Some (tt, w1) -> run (e :: es) w = run es w1.
Proof. intros H. simpl. unfold bind. by rewrite H. Qed.

(** X2. In cached mode with the cache populated, no sequence of events
    without a scale, bang or draw-mode message rebuilds the image:
    whatever paints, hovers, resizes and theme changes it holds,
    [drawStuff] does not run, nothing is allocated and the cached
    image stays the one it was. *)
Theorem cache_stable es w img :
  ToBoolean (useImage w) = true ->
  cachedImg w = Some img ->
  Forall (fun e => invalidating e = false) es ->
  exists w',
    run es w = Some (tt, w') /\
    cachedImg w' = Some img /\
    drawStuff_runs w' = drawStuff_runs w /\
    allocations w' = allocations w /\
    imgScale w' = imgScale w.
Proof.
  intros Hu Hc H. revert w Hu Hc.
  induction H as [|e es He _ IH]; intros w Hu Hc.
  - exists w. repeat split; try assumption.
  - destruct (handle_total e w) as [w1 H1].
    assert (K : cachedImg w1 = Some img /\ useImage w1 = useImage w /\
                drawStuff_runs w1 = drawStuff_runs w /\
                allocations w1 = allocations w /\ imgScale w1 = imgScale w).
    { destruct (is_paint e) eqn:Hp.
      - destruct e; try discriminate Hp. simpl in H1.
        destruct (paint_hit_runs w img w1 Hu Hc H1) as (A & B & C & D & E).
        repeat split; assumption.
      - assert (Hq : quiet e = true) by (unfold quiet; by rewrite He, Hp).
        destruct (quiet_frame e w w1 Hq H1) as (A & B & C & D & E).
        unfold drawStuff_runs, allocations.
        repeat split; congruence. }
    destruct K as (A & B & C & D & E).
    destruct (IH w1) as (w' & Hr & A' & C' & D' & E'); [congruence|exact A|].
    exists w'. simpl. unfold bind. rewrite H1.
    repeat split; congruence.
Qed.


(** X10. In every reachable state the cache is populated only in
    cached mode: [direct_draw] clears it and [paint] in direct mode
    does not fill it. *)
Theorem cache_only_in_cached_mode w :
  reachable w ->
  is_Some (cachedImg w) ->
  ToBoolean (useImage w) = true.
Proof. intros Hr. by destruct (reachable_inv w Hr). Qed.

(** X12. In every reachable state each off-screen context was made for
    one run of [drawStuff]: there are never more off-screen contexts
    than runs of [drawStuff]. *)
Theorem allocations_le_runs w :
  reachable w -> (allocations w <= drawStuff_runs w)%nat.
Proof.
  induction 1 as [sz th tm|w e w' _ IH H].
  - unfold allocations, drawStuff_runs. simpl. lia.
  - destruct (is_paint e) eqn:Hp.
    + destruct e; try discriminate Hp. simpl in H.
      destruct (ToBoolean (useImage w)) eqn:Hu.
      * destruct (cachedImg w) as [img|] eqn:Hc.
        -- destruct (paint_hit_runs w img w' Hu Hc H) as (_ & _ & _ & R & A). lia.
        -- destruct (paint_miss_runs w w' Hu Hc H) as (_ & _ & _ & R & A). lia.
      * destruct (paint_direct_runs w w' Hu H) as (_ & _ & _ & R & A & _). lia.
    + destruct (handlers_never_draw e w w' Hp H) as (_ & _ & A & B).
      unfold allocations, drawStuff_runs in *. rewrite A, B. exact IH.
Qed.

(** ** The scale factor *)

Lemma leb_ltb a b : leb a b = true -> ltb b a = false.
Proof.
  unfold leb, SFleb, ltb, SFltb.
  destruct (SFcompare a b) as [c|] eqn:E; [|discriminate].
  rewrite (SFcompare_antisym _ _ _ E). destruct c; try discriminate; reflexivity.
Qed.

Lemma in_range_not_nan x : in_range x = true -> is_nan x = false.
Proof.
  destruct x; try reflexivity. intros H. vm_compute in H. discriminate H.
Qed.

Lemma in_range_clamp x : in_range x = true -> clamp n0_125 n8 x = x.
Proof.
  unfold in_range, clamp. intros H. apply andb_prop in H as [H1 H2].
  rewrite (leb_ltb _ _ H1), (leb_ltb _ _ H2). reflexivity.
Qed.

Lemma max_min_NaN : Math_max n0_125 (Math_min n8 NaN) = NaN.
Proof. vm_compute. reflexivity. Qed.

Lemma max_min_idempotent v :
  Math_max n0_125 (Math_min n8 (Math_max n0_125 (Math_min n8 v))) =
  Math_max n0_125 (Math_min n8 v).
Proof.
  destruct (is_nan v) eqn:Hv.
  - assert (v = NaN) as -> by (destruct v; try discriminate Hv; reflexivity).
    rewrite max_min_NaN. exact max_min_NaN.
  - destruct (max_min_clamp v Hv) as [E R]. rewrite E.
    destruct (max_min_clamp _ (in_range_not_nan _ R)) as [E' _].
    rewrite E'. apply in_range_clamp. exact R.
Qed.

(** X8. The clamping of [msg_float] is idempotent: sending the stored
    scale factor back to [msg_float] stores the same value again,
    whatever was sent first (NaN included). *)
Theorem msg_float_idempotent v w :
  exists w1 w2,
    msg_float v w = Some (tt, w1) /\
    msg_float (imgScale w1) w1 = Some (tt, w2) /\
    imgScale w2 = imgScale w1.
Proof.
  do 2 eexists. split; [apply msg_float_spec|].
  split; [apply msg_float_spec|]. simpl. apply max_min_idempotent.
Qed.

Lemma paint_keeps_scale w w' :
  paint w = Some (tt, w') -> imgScale w' = imgScale w.
Proof.
  intros H. destruct (ToBoolean (useImage w)) eqn:Hu.
  - destruct (cachedImg w) as [img|] eqn:Hc.
    + by destruct (paint_hit_runs w img w' Hu Hc H) as (_ & S & _).
    + by destruct (paint_miss_runs w w' Hu Hc H) as (_ & S & _).
  - by destruct (paint_direct_runs w w' Hu H) as (_ & S & _).
Qed.

Lemma handle_keeps_range e w w' :
  carries_number e = true ->
  in_range (imgScale w) = true ->
  handle e w = Some (tt, w') ->
  in_range (imgScale w') = true.
Proof.
  intros Hn Hr H. destruct e; simpl in H, Hn;
    try (injection H as <-; exact Hr).
  - by rewrite (paint_keeps_scale w w' H).
  - apply negb_true_iff in Hn. destruct (max_min_clamp v Hn) as [E R].
    injection H as <-. simpl. rewrite E. exact R.
  - apply negb_true_iff in Hn. destruct (max_min_clamp v Hn) as [E R].
    injection H as <-. simpl. rewrite E. exact R.
Qed.

(** X9. From a state whose scale factor lies in [0.125, 8] (the script
    starts with 2), no sequence of events whose float and int messages
    carry numbers other than NaN takes it out of that interval. *)
Theorem scale_stays_in_range es w :
  in_range (imgScale w) = true ->
  Forall (fun e => carries_number e = true) es ->
  exists w', run es w = Some (tt, w') /\ in_range (imgScale w') = true.
Proof.
  intros Hr H. revert w Hr. induction H as [|e es He _ IH]; intros w Hr.
  - by exists w.
  - destruct (handle_total e w) as [w1 H1].
    destruct (IH w1 (handle_keeps_range e w w1 He Hr H1)) as (w' & Hrun & R).
    exists w'. simpl. unfold bind. rewrite H1. by split.
Qed.

(** X3. A float message rebuilds the image at the new scale even when
    the cache was populated and even when the value sent is the scale
    already in use: after [msg_float(v)] (not NaN) and a [paint] in
    cached mode, [drawStuff] has run once more into a new off-screen
    context of the size of the box times the clamp of [v], and the
    cached image is the one built then. *)
Theorem scale_change_rebuilds v w :
  ToBoolean (useImage w) = true ->
  is_nan v = false ->
  exists w' img,
    run [MsgFloat v; Paint] w = Some (tt, w') /\
    imgScale w' = clamp n0_125 n8 v /\
    cachedImg w' = Some img /\
    img_size img = (fst (size (mgraphics w)) * clamp n0_125 n8 v,
                    snd (size (mgraphics w)) * clamp n0_125 n8 v)%num /\
    built_at (clamp n0_125 n8 v) img /\
    drawStuff_runs w' = S (drawStuff_runs w) /\
    allocations w' = S (allocations w).
Proof.
  intros Hu Hv. destruct (max_min_clamp v Hv) as [E _].
  pose proof (msg_float_spec v w) as H1.
  set (w1 := World None (Math_max n0_125 (Math_min n8 v)) (idle w) (useImage w)
                   (mgraphics w) (heap w) (outlets w) (S (redraws w))
                   (max_getcolor w) (host_text_measure w)) in *.
  destruct (paint_total w1) as [w2 H2].
  destruct (paint_miss_runs w1 w2 Hu eq_refl H2) as (C & S2 & _ & R & A).
  exists w2, (built_image w1).
  split; [simpl; unfold bind; rewrite H1, H2; reflexivity|].
  split; [rewrite S2; exact E|].
  split; [exact C|].
  split; [simpl; unfold offscreen_size; simpl; rewrite E; reflexivity|].
  split; [rewrite <- E; apply (built_image_built_at w1)|].
  split; [exact R|exact A].
Qed.

(** ** Colours *)

(** X4. After a change of the theme, a [bang] and a [paint] in cached
    mode rebuild the image with the colours of the new theme: the
    colours set while the new image is drawn are the new
    [live_lcd_bg], [live_lcd_control_fg] and [live_lcd_control_fg_alt],
    in this order. *)
Theorem theme_bang_paint th w :
  ToBoolean (useImage w) = true ->
  exists w' img,
    run [HostTheme th; Bang; Paint] w = Some (tt, w') /\
    cachedImg w' = Some img /\
    List.filter is_set_source (img_drawn img) =
      [ set_source_rgba (th "live_lcd_bg");
        set_source_rgba (th "live_lcd_control_fg");
        set_source_rgba (th "live_lcd_control_fg_alt") ] /\
    drawStuff_runs w' = S (drawStuff_runs w).
Proof.
  intros Hu.
  set (w1 := World None (imgScale w) (idle w) (useImage w)
                   (mgraphics w) (heap w) (outlets w) (S (redraws w))
                   th (host_text_measure w)).
  destruct (paint_total w1) as [w2 H2].
  destruct (paint_miss_runs w1 w2 Hu eq_refl H2) as (C & _ & _ & R & _).
  exists w2, (built_image w1).
  split.
  { rewrite (run_cons (HostTheme th) _ w (set_max_getcolor th w) eq_refl).
    rewrite (run_cons Bang _ (set_max_getcolor th w) w1 eq_refl).
    rewrite (run_cons Paint _ w1 w2 H2). reflexivity. }
  split; [exact C|]. split; [reflexivity|exact R].
Qed.

(** ** The draw mode *)

(** X5. Switching to direct drawing and back costs one rebuild: after
    [direct_draw(v1)] with [parseInt(v1)] not 0, a paint,
    [direct_draw(v2)] with [parseInt(v2)] equal to 0 and another paint,
    [drawStuff] has run twice (once on the visible context, once off
    screen), one off-screen context has been made, and the script is
    in cached mode with the cache populated. *)
Theorem toggle_round_trip v1 v2 w :
  eqb (parseInt v1) n0 = false ->
  eqb (parseInt v2) n0 = true ->
  exists w',
    run [DirectDraw v1; Paint; DirectDraw v2; Paint] w = Some (tt, w') /\
    drawStuff_runs w' = (drawStuff_runs w + 2)%nat /\
    allocations w' = S (allocations w) /\
    is_Some (cachedImg w') /\
    ToBoolean (useImage w') = true.
Proof.
  intros E1 E2.
  pose proof (direct_draw_spec v1 w) as H1. rewrite E1 in H1.
  set (w1 := World None (imgScale w) (idle w) (JBool false)
                   (mgraphics w) (heap w) (outlets w) (S (redraws w))
                   (max_getcolor w) (host_text_measure w)) in *.
  destruct (paint_total w1) as [w2 H2].
  destruct (paint_direct_runs w1 w2 eq_refl H2) as (C2 & _ & _ & R2 & A2 & _).
  pose proof (direct_draw_spec v2 w2) as H3. rewrite E2 in H3.
  set (w3 := World None (imgScale w2) (idle w2) (JBool true)
                   (mgraphics w2) (heap w2) (outlets w2) (S (redraws w2))
                   (max_getcolor w2) (host_text_measure w2)) in *.
  destruct (paint_total w3) as [w4 H4].
  destruct (paint_miss_runs w3 w4 eq_refl eq_refl H4) as (C4 & _ & U4 & R4 & A4).
  exists w4.
  split; [simpl; unfold bind; rewrite H1, H2, H3, H4; reflexivity|].
  split; [rewrite R4; change (drawStuff_runs w3) with (drawStuff_runs w2);
          rewrite R2; change (drawStuff_runs w1) with (drawStuff_runs w); lia|].
  split; [rewrite A4; change (allocations w3) with (allocations w2);
          rewrite A2; reflexivity|].
  split; [rewrite C4; by eexists|].
  rewrite U4. reflexivity.
Qed.

(** ** The hover indicator *)

(** X6. The image built on a cache miss does not depend on the hover
    flag: with [idle] set to anything else, [paint] stores the same
    image and makes the same off-screen context. *)
Theorem cache_ignores_hover v w :
  ToBoolean (useImage w) = true ->
  cachedImg w = None ->
  exists w1 w2,
    paint w = Some (tt, w1) /\
    paint (set_idle v w) = Some (tt, w2) /\
    cachedImg w1 = cachedImg w2 /\
    is_Some (cachedImg w1) /\
    heap w1 = heap w2.
Proof.
  intros Hu Hc. do 2 eexists.
  split; [apply (paint_miss w Hu Hc)|].
  split; [apply (paint_miss (set_idle v w) Hu Hc)|].
  simpl. split; [reflexivity|]. split; [by eexists|reflexivity].
Qed.

Lemma two_times_five : (n2 * n5)%num = n10.
Proof. vm_compute. reflexivity. Qed.

(** X7. One [paint] adds to the call log of the visible context the
    background calls, then the compositing of the cached image (cached
    mode) or the calls of [drawStuff] (direct mode), and after them,
    when [idle] is truthy and only then, the hover indicator: a square
    of side 5 at [(w - 10, (h - 5) / 2)] in the [live_active_automation]
    colour. The rectangles before it are the background and, in direct
    mode, the frame of [drawStuff]. In cached mode the call just
    before the indicator is [identity_matrix()]: it is drawn unscaled. *)
Theorem paint_indicator_last w :
  exists w' cs,
    paint w = Some (tt, w') /\
    drawn (mgraphics w') =
      drawn (mgraphics w) ++ cs ++
      (if ToBoolean (idle w) then indicator w else []) /\
    cs = background_cmds w ++ content_cmds w (cachedImg w') /\
    List.filter is_rectangle cs =
      rectangle n0 n0 (fst (size (mgraphics w))) (snd (size (mgraphics w))) ::
      (if ToBoolean (useImage w) then []
       else [rectangle n0 n0 (fst (size (mgraphics w)) - n3)
                             (snd (size (mgraphics w)) - n3)]) /\
    (ToBoolean (useImage w) = true ->
       is_Some (cachedImg w') /\ last cs = Some identity_matrix).
Proof.
  assert (Ho : overlay_cmds w = if ToBoolean (idle w) then indicator w else []).
  { unfold overlay_cmds, indicator. by rewrite two_times_five. }
  unfold content_cmds. destruct (ToBoolean (useImage w)) eqn:Hu.
  - destruct (cachedImg w) as [img|] eqn:Hc.
    + exists (World (Some img) (imgScale w) (idle w) (useImage w)
                    (painted_cached w img) (heap w)
                    (outlets w ++ [(0%nat, "bang")])
                    (redraws w) (max_getcolor w) (host_text_measure w)),
             (background_cmds w ++ composite_cmds w img).
      split; [by apply paint_hit|].
      split; [simpl; rewrite Ho; reflexivity|].
      split; [reflexivity|]. split; [reflexivity|].
      intros _. split; [by eexists|reflexivity].
    + exists (World (Some (built_image w)) (imgScale w) (idle w) (useImage w)
                    (painted_cached w (built_image w))
                    (heap w ++ [drawStuff_on w (offscreen_scaled w)])
                    (outlets w ++ [(1%nat, "bang"); (0%nat, "bang")])
                    (redraws w) (max_getcolor w) (host_text_measure w)),
             (background_cmds w ++ composite_cmds w (built_image w)).
      split; [by apply paint_miss|].
      split; [simpl; rewrite Ho; reflexivity|].
      split; [reflexivity|]. split; [reflexivity|].
      intros _. split; [by eexists|reflexivity].
  - exists (World (cachedImg w) (imgScale w) (idle w) (useImage w)
                  (painted_direct w) (heap w)
                  (outlets w ++ [(1%nat, "bang"); (0%nat, "bang")])
                  (redraws w) (max_getcolor w) (host_text_measure w)),
           (background_cmds w ++ drawStuff_cmds w (painted_background w)).
    split; [by apply paint_direct|].
    split; [simpl; rewrite Ho; reflexivity|].
    split; [reflexivity|]. split; [reflexivity|discriminate].
Qed.

(** ** Compositing *)

(** X13. In cached mode the calls of one [paint] on the visible context
    that touch the transform or draw an image are, in this order,
    [scale(1/s, 1/s)] for the current scale factor [s], the drawing of
    the image that is in the cache when [paint] returns, and
    [identity_matrix()]; the background before and the hover indicator
    after are drawn without any change of transform. *)
Theorem paint_composites_cached_image w :
  ToBoolean (useImage w) = true ->
  exists w' cs img,
    paint w = Some (tt, w') /\
    cachedImg w' = Some img /\
    drawn (mgraphics w') = drawn (mgraphics w) ++ cs /\
    List.filter (fun c => is_transform c || is_image_draw c) cs =
      [ scale (n1 / imgScale w) (n1 / imgScale w);
        image_surface_draw img;
        identity_matrix ].
Proof.
  intros Hu. destruct (cachedImg w) as [img|] eqn:Hc.
  - exists (World (Some img) (imgScale w) (idle w) (useImage w)
                  (painted_cached w img) (heap w)
                  (outlets w ++ [(0%nat, "bang")])
                  (redraws w) (max_getcolor w) (host_text_measure w)),
           (background_cmds w ++ composite_cmds w img ++ overlay_cmds w), img.
    split; [by apply paint_hit|]. split; [reflexivity|]. split; [reflexivity|].
    unfold overlay_cmds. by destruct (ToBoolean (idle w)).
  - exists (World (Some (built_image w)) (imgScale w) (idle w) (useImage w)
                  (painted_cached w (built_image w))
                  (heap w ++ [drawStuff_on w (offscreen_scaled w)])
                  (outlets w ++ [(1%nat, "bang"); (0%nat, "bang")])
                  (redraws w) (max_getcolor w) (host_text_measure w)),
           (background_cmds w ++ composite_cmds w (built_image w)
              ++ overlay_cmds w), (built_image w).
    split; [by apply paint_miss|]. split; [reflexivity|]. split; [reflexivity|].
    unfold overlay_cmds. by destruct (ToBoolean (idle w)).
Qed.

End Script.

(** * Instances *)

(** C1 on the 200 x 100 box: paint, then the mouse enters and the box
    is resized, then paint again. *)
Lemma paint_twice_draws_once_witness :
  in_range (imgScale world0) = true /\
  ToBoolean (useImage world0) = true /\
  cachedImg world0 = None /\
  exists w1 w2 w3,
    paint world0 = Some (tt, w1) /\
    run toString0 [OnIdle; HostResize (n100, n100)] w1 = Some (tt, w2) /\
    paint w2 = Some (tt, w3) /\
    cachedImg w1 = Some (built_image world0) /\
    drawStuff_runs w1 = S (drawStuff_runs world0) /\
    drawStuff_runs w3 = drawStuff_runs w1 /\
    drawStuff_runs w3 = S (drawStuff_runs world0) /\
    allocations w3 = allocations w1 /\
    cachedImg w3 = cachedImg w1.
Proof.
  split; [vm_compute; reflexivity|].
  split; [reflexivity|]. split; [reflexivity|].
  apply (paint_twice_draws_once toString0 world0
           [OnIdle; HostResize (n100, n100)]).
  - vm_compute. reflexivity.
  - reflexivity.
  - reflexivity.
  - repeat constructor.
Defined.

Lemma reachable_world1 : reachable toString0 world1.
Proof.
  apply (reachable_step toString0 world0 Paint world1).
  - apply reachable_init.
  - vm_compute. reflexivity.
Defined.

(** C2 on the box after its first paint. *)
Lemma cache_coherence_witness :
  reachable toString0 world1 /\
  coherent world1 /\
  forall e, invalidating e = true ->
    exists w', handle toString0 e world1 = Some (tt, w') /\
      cachedImg w' = None /\ redraws w' = S (redraws world1) /\ coherent w'.
Proof.
  split; [exact reachable_world1|].
  apply (cache_coherence toString0 world1). exact reachable_world1.
Defined.

(** C3 on the 200 x 100 box at scale 2. *)
Lemma paint_miss_offscreen_witness :
  ToBoolean (useImage world0) = true /\
  cachedImg world0 = None /\
  exists w' g rest,
    paint world0 = Some (tt, w') /\
    heap w' = heap world0 ++ [g] /\
    size g = (fst (size (mgraphics world0)) * imgScale world0,
              snd (size (mgraphics world0)) * imgScale world0)%num /\
    drawn g = scale (imgScale world0) (imgScale world0) :: rest /\
    Forall (fun c => is_scale c = false) rest /\
    rest = drawStuff_cmds world0 (offscreen_scaled world0) /\
    drawStuff_runs w' = S (drawStuff_runs world0) /\
    cachedImg w' = Some (mkImage (size g) (drawn g)).
Proof.
  split; [reflexivity|]. split; [reflexivity|].
  apply (paint_miss_offscreen world0); reflexivity.
Defined.

(** The off-screen context of the 200 x 100 box at scale 2 is 400 x 200. *)
Example offscreen_400_200 : size offscreen1 = (Num.of_Z 400, Num.of_Z 200).
Proof. vm_compute. reflexivity. Qed.

(** C4 on the box after its first paint. *)
Lemma paint_cached_keeps_transform_witness :
  reachable toString0 world1 /\
  ToBoolean (useImage world1) = true /\
  exists w',
    paint world1 = Some (tt, w') /\
    ctm (mgraphics w') = ctm (mgraphics world1) /\
    ctm (mgraphics world1) = identity.
Proof.
  split; [exact reachable_world1|]. split; [reflexivity|].
  apply (paint_cached_keeps_transform toString0 world1).
  - exact reachable_world1.
  - reflexivity.
Defined.

(** [identity_matrix()] is a reset, not an undo: on a state that no
    run of the script reaches, with [scale(2, 2)] already set on the
    visible context, [paint] in cached mode would end with the
    identity. *)
Example paint_resets_preset_transform :
  ctm (mgraphics world_scaled) = Matrix n2 n0 n0 n2 n0 n0 /\
  exists w',
    paint world_scaled = Some (tt, w') /\
    ctm (mgraphics w') = identity.
Proof.
  split; [reflexivity|].
  eexists. split; [apply paint_miss; reflexivity|]. reflexivity.
Qed.

(** C5 on the 400 x 200 off-screen context of the painted box. *)
Lemma drawStuff_frame_from_screen_witness :
  lookup_mg (Offscreen 0) world1 = Some offscreen1 /\
  exists w' g' cs,
    drawStuff (Offscreen 0) world1 = Some (tt, w') /\
    lookup_mg (Offscreen 0) w' = Some g' /\
    drawn g' = drawn offscreen1 ++ cs /\
    List.filter is_rectangle cs =
      [rectangle n0 n0 (fst (size (mgraphics world1)) - n3)
                       (snd (size (mgraphics world1)) - n3)].
Proof.
  split; [reflexivity|].
  apply (drawStuff_frame_from_screen (Offscreen 0) offscreen1 world1).
  reflexivity.
Defined.

(** C6 on the visible context with [scale(2, 2)] set. *)
Lemma drawStuff_restores_matrix_witness :
  lookup_mg Screen world_scaled = Some (mgraphics world_scaled) /\
  exists w' g' cs,
    drawStuff Screen world_scaled = Some (tt, w') /\
    lookup_mg Screen w' = Some g' /\
    ctm g' = ctm (mgraphics world_scaled) /\
    drawn g' = drawn (mgraphics world_scaled) ++ cs /\
    replay cs (ctm (mgraphics world_scaled)) = ctm (mgraphics world_scaled) /\
    List.filter is_transform cs =
      [translate n1_5 n1_5; set_matrix (ctm (mgraphics world_scaled))].
Proof.
  split; [reflexivity|].
  apply (drawStuff_restores_matrix Screen (mgraphics world_scaled) world_scaled).
  reflexivity.
Defined.

(** C8 on the box after its first paint. *)
Lemma hover_keeps_cache_witness :
  reachable toString0 world1 /\
  cachedImg world1 = Some image1 /\
  exists w1 w2 w3 w4,
    onidle world1 = Some (tt, w1) /\ paint w1 = Some (tt, w2) /\
    onidleout w2 = Some (tt, w3) /\ paint w3 = Some (tt, w4) /\
    run toString0 [OnIdle; Paint; OnIdleOut; Paint] world1 = Some (tt, w4) /\
    idle w1 = JNumber n1 /\ ToBoolean (idle w1) = true /\
    idle w3 = JNumber n0 /\ ToBoolean (idle w3) = false /\
    redraws w1 = S (redraws world1) /\ redraws w3 = S (redraws w2) /\
    cachedImg w1 = Some image1 /\ cachedImg w2 = Some image1 /\
    cachedImg w3 = Some image1 /\ cachedImg w4 = Some image1 /\
    drawStuff_runs w4 = drawStuff_runs world1 /\
    allocations w4 = allocations world1.
Proof.
  split; [exact reachable_world1|]. split; [reflexivity|].
  apply (hover_keeps_cache toString0 world1 image1).
  - exact reachable_world1.
  - reflexivity.
Defined.

(** C9 as stated fails: on a box of size 0 x 0 [paint] is not skipped.
    It draws the background and the cached image on the visible
    context, runs [drawStuff] and sends both bangs. *)
Lemma paint_empty_box_counterexample :
  nonpositive_size world_empty = true /\
  exists w',
    paint world_empty = Some (tt, w') /\
    drawn (mgraphics w') <> drawn (mgraphics world_empty) /\
    List.filter is_drawing (drawn (mgraphics w')) <> [] /\
    allocations w' = 1%nat /\
    outlets w' = [(1%nat, "bang"); (0%nat, "bang")].
Proof.
  split; [vm_compute; reflexivity|].
  eexists. split; [apply paint_miss; reflexivity|].
  split; [|split; [|split; reflexivity]]; vm_compute; intros H; discriminate H.
Qed.

(** C9, amended, on the box of size 0 x 0. *)
Lemma paint_ignores_size_witness :
  nonpositive_size world_empty = true /\
  exists w',
    paint world_empty = Some (tt, w') /\
    redraws w' = redraws world_empty /\
    drawn (mgraphics w') =
      drawn (mgraphics world_empty) ++ background_cmds world_empty
        ++ content_cmds world_empty (cachedImg w') ++ overlay_cmds world_empty /\
    (if ToBoolean (useImage world_empty) then
       cachedImg w' =
         Some (default (built_image world_empty) (cachedImg world_empty)) /\
       heap w' = heap world_empty ++
                 match cachedImg world_empty with
                 | Some _ => []
                 | None => [drawStuff_on world_empty (offscreen_scaled world_empty)]
                 end /\
       outlets w' = outlets world_empty ++
                    match cachedImg world_empty with
                    | Some _ => []
                    | None => [(1%nat, "bang")]
                    end ++ [(0%nat, "bang")]
     else
       cachedImg w' = cachedImg world_empty /\
       heap w' = heap world_empty /\
       outlets w' = outlets world_empty ++ [(1%nat, "bang"); (0%nat, "bang")]) /\
    forall sz, exists w'',
      paint (resize sz world_empty) = Some (tt, w'') /\
      map method_name (drawn (mgraphics w'')) =
        map method_name (drawn (mgraphics w')) /\
      map (fun g => map method_name (drawn g)) (heap w'') =
        map (fun g => map method_name (drawn g)) (heap w') /\
      outlets w'' = outlets w' /\
      redraws w'' = redraws w'.
Proof.
  split; [vm_compute; reflexivity|].
  apply (paint_ignores_size world_empty). vm_compute. reflexivity.
Defined.

(** X11 on the mouse entering the painted box. *)
Lemma handlers_never_draw_witness :
  is_paint OnIdle = false /\
  handle toString0 OnIdle world1 = Some (tt, set_redraws 1 (set_idle (JNumber n1) world1)) /\
  drawn (mgraphics (set_redraws 1 (set_idle (JNumber n1) world1))) = drawn (mgraphics world1) /\
  ctm (mgraphics (set_redraws 1 (set_idle (JNumber n1) world1))) = ctm (mgraphics world1) /\
  heap (set_redraws 1 (set_idle (JNumber n1) world1)) = heap world1 /\
  outlets (set_redraws 1 (set_idle (JNumber n1) world1)) = outlets world1.
Proof.
  split; [reflexivity|]. split; [reflexivity|].
  apply (handlers_never_draw toString0 OnIdle world1); reflexivity.
Defined.

(** X2 on the painted box: a paint, a hover, a theme change, a resize
    and two more paints. *)
Lemma cache_stable_witness :
  ToBoolean (useImage world1) = true /\
  cachedImg world1 = Some image1 /\
  exists w',
    run toString0 [Paint; OnIdle; HostTheme theme1; HostResize (n100, n100);
                   Paint; Paint] world1 = Some (tt, w') /\
    cachedImg w' = Some image1 /\
    drawStuff_runs w' = drawStuff_runs world1 /\
    allocations w' = allocations world1 /\
    imgScale w' = imgScale world1.
Proof.
  split; [reflexivity|]. split; [reflexivity|].
  apply (cache_stable toString0
           [Paint; OnIdle; HostTheme theme1; HostResize (n100, n100); Paint; Paint]
           world1 image1).
  - reflexivity.
  - reflexivity.
  - repeat constructor.
Defined.


(** X10 on the painted box. *)
Lemma cache_only_in_cached_mode_witness :
  reachable toString0 world1 /\
  is_Some (cachedImg world1) /\
  ToBoolean (useImage world1) = true.
Proof.
  split; [exact reachable_world1|].
  split; [exists image1; reflexivity|].
  apply (cache_only_in_cached_mode toString0 world1).
  - exact reachable_world1.
  - exists image1. reflexivity.
Defined.

(** X12 on the painted box. *)
Lemma allocations_le_runs_witness :
  reachable toString0 world1 /\
  (allocations world1 <= drawStuff_runs world1)%nat.
Proof.
  split; [exact reachable_world1|].
  apply (allocations_le_runs toString0 world1). exact reachable_world1.
Defined.

(** X9 on the box just loaded. *)
Lemma scale_stays_in_range_witness :
  in_range (imgScale world0) = true /\
  exists w',
    run toString0 [MsgFloat n10; Paint; MsgInt n0; DirectDraw (JString "x");
                   MsgFloat n0_01; Paint] world0 = Some (tt, w') /\
    in_range (imgScale w') = true.
Proof.
  split; [vm_compute; reflexivity|].
  apply (scale_stays_in_range toString0
           [MsgFloat n10; Paint; MsgInt n0; DirectDraw (JString "x");
            MsgFloat n0_01; Paint] world0).
  - vm_compute. reflexivity.
  - repeat constructor.
Defined.

(** X3 on the painted box, sending the scale 2 it already has. *)
Lemma scale_change_rebuilds_witness :
  ToBoolean (useImage world1) = true /\
  is_nan n2 = false /\
  exists w' img,
    run toString0 [MsgFloat n2; Paint] world1 = Some (tt, w') /\
    imgScale w' = clamp n0_125 n8 n2 /\
    cachedImg w' = Some img /\
    img_size img = (fst (size (mgraphics world1)) * clamp n0_125 n8 n2,
                    snd (size (mgraphics world1)) * clamp n0_125 n8 n2)%num /\
    built_at (clamp n0_125 n8 n2) img /\
    drawStuff_runs w' = S (drawStuff_runs world1) /\
    allocations w' = S (allocations world1).
Proof.
  split; [reflexivity|]. split; [reflexivity|].
  apply (scale_change_rebuilds toString0 n2 world1); reflexivity.
Defined.

(** X4 on the painted box and another theme. *)
Lemma theme_bang_paint_witness :
  ToBoolean (useImage world1) = true /\
  exists w' img,
    run toString0 [HostTheme theme1; Bang; Paint] world1 = Some (tt, w') /\
    cachedImg w' = Some img /\
    List.filter is_set_source (img_drawn img) =
      [ set_source_rgba (theme1 "live_lcd_bg");
        set_source_rgba (theme1 "live_lcd_control_fg");
        set_source_rgba (theme1 "live_lcd_control_fg_alt") ] /\
    drawStuff_runs w' = S (drawStuff_runs world1).
Proof.
  split; [reflexivity|].
  apply (theme_bang_paint toString0 theme1 world1). reflexivity.
Defined.

(** X5 on the painted box, with the messages [direct_draw 1] and
    [direct_draw 0]. *)
Lemma toggle_round_trip_witness :
  eqb (parseInt toString0 (JNumber n1)) n0 = false /\
  eqb (parseInt toString0 (JNumber n0)) n0 = true /\
  exists w',
    run toString0 [DirectDraw (JNumber n1); Paint; DirectDraw (JNumber n0); Paint]
        world1 = Some (tt, w') /\
    drawStuff_runs w' = (drawStuff_runs world1 + 2)%nat /\
    allocations w' = S (allocations world1) /\
    is_Some (cachedImg w') /\
    ToBoolean (useImage w') = true.
Proof.
  split; [vm_compute; reflexivity|]. split; [vm_compute; reflexivity|].
  apply (toggle_round_trip toString0 (JNumber n1) (JNumber n0) world1);
    vm_compute; reflexivity.
Defined.

(** X6 on the box just loaded, with the mouse over it or not. *)
Lemma cache_ignores_hover_witness :
  ToBoolean (useImage world0) = true /\
  cachedImg world0 = None /\
  exists w1 w2,
    paint world0 = Some (tt, w1) /\
    paint (set_idle (JNumber n1) world0) = Some (tt, w2) /\
    cachedImg w1 = cachedImg w2 /\
    is_Some (cachedImg w1) /\
    heap w1 = heap w2.
Proof.
  split; [reflexivity|]. split; [reflexivity|].
  apply (cache_ignores_hover (JNumber n1) world0); reflexivity.
Defined.

(** X13 on the box just loaded. *)
Lemma paint_composites_cached_image_witness :
  ToBoolean (useImage world0) = true /\
  exists w' cs img,
    paint world0 = Some (tt, w') /\
    cachedImg w' = Some img /\
    drawn (mgraphics w') = drawn (mgraphics world0) ++ cs /\
    List.filter (fun c => is_transform c || is_image_draw c) cs =
      [ scale (n1 / imgScale world0) (n1 / imgScale world0);
        image_surface_draw img;
        identity_matrix ].
Proof.
  split; [reflexivity|].
  apply (paint_composites_cached_image world0). reflexivity.
Defined.
